(** * HiDes modulator device (Linux implementation): pacing and retry engine

    A shallow embedding of [src/libtsduck/linux/tsHiDesDevice.cpp]:
    the error-text composition, [tune], [startTransmission],
    [stopTransmission] and [send], followed by the properties of the
    specification that concern them.

    Machine integers are values of [Z]; unsigned 64-bit and 32-bit
    arithmetic is written with [wrap64] and [wrap32].  The device, the
    clock and the report are external to the program: control commands
    are answered by [ioctl], the successive results of [write(2)] are
    read from a script, the clock reading is an argument, and every call
    to the outside (ioctl, write, usleep, deadline wait, report) is
    recorded in the list of events an operation returns. *)

From Stdlib Require Import ZArith List String Bool Lia.
Import ListNotations.
Local Open Scope string_scope.
Local Open Scope list_scope.
Local Open Scope Z_scope.

(** ** Machine integers *)

(** [uint64_t] / [size_t] on the 64-bit Linux target. *)
Definition wrap64 (z : Z) : Z := z mod 2 ^ 64.

(** [uint32_t]. *)
Definition wrap32 (z : Z) : Z := z mod 2 ^ 32.

(** ** Constants *)

(** [#define ITE_MAX_SEND_PACKETS 172] *)
Definition ITE_MAX_SEND_PACKETS : Z := 172.

(** [#define ITE_MAX_SEND_BYTES (ITE_MAX_SEND_PACKETS * 188)] *)
Definition ITE_MAX_SEND_BYTES : Z := ITE_MAX_SEND_PACKETS * 188.

(** Modelled from the spec: [PKT_SIZE], the size in bytes of a transport
    packet, is declared in a header that is not among the sources; it is
    the 188 of [ITE_MAX_SEND_BYTES] above. *)
Definition PKT_SIZE : Z := 188.

(** Modelled from the spec: [NanoSecPerSec] (1e9, of the signed 64-bit
    type [NanoSecond]) is declared in a header that is not among the
    sources. *)
Definition NanoSecPerSec : Z := 1000000000.

(** Modelled from the spec: [NanoSecPerMilliSec], as above. *)
Definition NanoSecPerMilliSec : Z := 1000000.

(** [EINTR] of the Linux [<errno.h>]. *)
Definition EINTR : Z := 4.

(** ** Driver requests

    The request structures and the driver's encodings are declared in
    [tsIT950x.h], which is not among the sources.  A request is modelled
    by its command code together with the fields the program fills in;
    the encodings are kept symbolic. *)

Inductive Constellation := Mode_QPSK | Mode_16QAM | Mode_64QAM.

Inductive CodeRate :=
| CodeRate_1_OVER_2 | CodeRate_2_OVER_3 | CodeRate_3_OVER_4
| CodeRate_5_OVER_6 | CodeRate_7_OVER_8.

Inductive Interval :=
| Interval_1_OVER_32 | Interval_1_OVER_16 | Interval_1_OVER_8 | Interval_1_OVER_4.

Inductive TransmissionModeCode :=
| TransmissionMode_2K | TransmissionMode_4K | TransmissionMode_8K.

Inductive Request :=
| IOCTL_ITE_MOD_ACQUIRECHANNEL (frequency bandwidth : Z)
| IOCTL_ITE_MOD_SETMODULE (constellation : Constellation) (highCodeRate : CodeRate)
                          (interval : Interval) (transmissionMode : TransmissionModeCode)
| IOCTL_ITE_MOD_SETSPECTRALINVERSION (isInversion : bool)
| IOCTL_ITE_MOD_ENABLETXMODE (OnOff : Z)
| IOCTL_ITE_MOD_STARTTRANSFER
| IOCTL_ITE_MOD_STOPTRANSFER.

(** What one [ioctl] call leaves behind: its returned value, the [error]
    field the driver wrote into the request, and [errno]. *)
Record IoctlResult := mkIoctlResult {
  io_ret : Z;
  io_error : Z;
  io_errno : Z
}.

(** [::ioctl(...) < 0 || request.error != 0] *)
Definition ioctl_failed (r : IoctlResult) : bool :=
  (io_ret r <? 0) || negb (io_error r =? 0).

(** What one [write(2)] call leaves behind: the returned status (not a
    size, see the head of the source file) and [errno], which the
    program saves at once in [err].  The program then writes a log
    line, and the report may change [errno]: [wr_errno_after_log] is
    [errno] as the program finds it after that line, when it compares
    it with [EINTR]. *)
Record WriteResult := mkWriteResult {
  wr_status : Z;
  wr_errno : Z;
  wr_errno_after_log : Z
}.

(** ** Tuning parameters

    Modelled from the spec: the enumerations of [tsModulation.h] and the
    class [TunerParametersDVBT] are not among the sources.  Each
    enumeration has the enumerators that [tune] names and one more
    constructor standing for every other value of the type; the record
    has the fields that [tune] reads. *)

Inductive Modulation := QPSK | QAM_16 | QAM_64 | Modulation_other (v : Z).

Inductive InnerFEC :=
| FEC_1_2 | FEC_2_3 | FEC_3_4 | FEC_5_6 | FEC_7_8 | InnerFEC_other (v : Z).

Inductive GuardInterval :=
| GUARD_1_32 | GUARD_1_16 | GUARD_1_8 | GUARD_1_4 | GuardInterval_other (v : Z).

Inductive TransmissionMode := TM_2K | TM_4K | TM_8K | TransmissionMode_other (v : Z).

Inductive SpectralInversion :=
| SPINV_OFF | SPINV_ON | SPINV_AUTO | SpectralInversion_other (v : Z).

(** The bandwidth enumeration is only handed to [BandWidthValueHz]. *)
Definition BandWidth : Type := Z.

Record TunerParametersDVBT := mkTunerParametersDVBT {
  frequency : Z;
  bandwidth : BandWidth;
  modulation : Modulation;
  fec_hp : InnerFEC;
  guard_interval : GuardInterval;
  transmission_mode : TransmissionMode;
  inversion : SpectralInversion
}.

(** ** The outside world *)

Inductive NamesFlags := HEXA_FIRST.

(** Functions of the library and of the system that the program calls
    and that are not among the sources. *)
Class Platform := {
  (** [DVBNameFromSection(section, value, flags)], the name table lookup. *)
  DVBNameFromSection : string -> Z -> NamesFlags -> string;
  (** [ErrorCodeMessage(code)], the text of a system error code. *)
  ErrorCodeMessage : Z -> string;
  (** [BandWidthValueHz(bw)], zero for an unknown bandwidth. *)
  BandWidthValueHz : BandWidth -> Z;
  (** The implicit conversion to the type of the [bandwidth] field of
      the acquire-channel request. *)
  bandwidth_field : Z -> Z;
  (** [params.theoreticalBitrate()]. *)
  theoreticalBitrate : TunerParametersDVBT -> Z;
  (** [Monotonic::SetPrecision(requested)], the precision obtained. *)
  Monotonic_SetPrecision : Z -> Z;
  (** [::ioctl(fd, code, &request)], called with [errno] cleared. *)
  ioctl : Z -> Request -> IoctlResult
}.

(** Arguments of a report format string. *)
Inductive Arg := AStr (s : string) | AInt (z : Z).

(** The calls to the outside, in the order they are made. *)
Inductive Event :=
| Ioctl (fd : Z) (req : Request)
| Write (fd : Z) (data burst : Z) (res : WriteResult)
| Usleep (usec : Z)
| Wait (due : Z)
| SetPrecision (requested : Z)
| ReportError (fmt : string) (args : list Arg)
| ReportLog (level : Z) (fmt : string) (args : list Arg)
| ReportDebug (fmt : string).

(** [UString::empty()] *)
Definition empty (s : string) : bool :=
  match s with
  | EmptyString => true
  | String _ _ => false
  end.

(** ** Class internals, the "guts" internal class *)

Module Guts.

(** The data members; [info] plays no part in the operations below
    and is left out.  [due_time] is a [Monotonic] clock value, in
    nanoseconds. *)
Record t := mk {
  fd : Z;
  transmitting : bool;
  bitrate : Z;
  due_time : Z;
  pkt_sent : Z;
  all_write : Z;
  fail_write : Z
}.

Definition set_transmitting (v : bool) (g : t) : t :=
  mk (fd g) v (bitrate g) (due_time g) (pkt_sent g) (all_write g) (fail_write g).
Definition set_due_time (v : Z) (g : t) : t :=
  mk (fd g) (transmitting g) (bitrate g) v (pkt_sent g) (all_write g) (fail_write g).
Definition set_pkt_sent (v : Z) (g : t) : t :=
  mk (fd g) (transmitting g) (bitrate g) (due_time g) v (all_write g) (fail_write g).
Definition set_all_write (v : Z) (g : t) : t :=
  mk (fd g) (transmitting g) (bitrate g) (due_time g) (pkt_sent g) v (fail_write g).
Definition set_fail_write (v : Z) (g : t) : t :=
  mk (fd g) (transmitting g) (bitrate g) (due_time g) (pkt_sent g) (all_write g) v.
Definition set_bitrate (v : Z) (g : t) : t :=
  mk (fd g) (transmitting g) v (due_time g) (pkt_sent g) (all_write g) (fail_write g).

(** The result of an operation that always returns. *)
Definition result : Type := bool * t * list Event.

(** The result of [send]: [None] when the script of write results is
    used up before the loop ends. *)
Definition outcome : Type := option result.

(** Put the events made so far in front of those of the rest. *)
Definition emit (evs : list Event) (o : outcome) : outcome :=
  match o with
  | Some (ok, g, tr) => Some (ok, g, evs ++ tr)
  | None => None
  end.

Section WithPlatform.
Context {P : Platform}.

(** [ts::HiDesDevice::Guts::HiDesErrorMessage] *)
Definition HiDesErrorMessage (driver_status errno_status : Z) : string :=
  let msg :=
    if negb (driver_status =? 0)
    then DVBNameFromSection "HiDesError" (Z.abs driver_status) HEXA_FIRST
    else "" in
  if negb (errno_status =? 0) && negb (errno_status =? driver_status) then
    let msg := if negb (empty msg) then (msg ++ ", ")%string else msg in
    (msg ++ ErrorCodeMessage errno_status)%string
  else msg.

(** [ts::HiDesDevice::Guts::startTransmission] *)
Definition startTransmission (g : t) : result :=
  let prec := Monotonic_SetPrecision NanoSecPerMilliSec in
  let ev0 :=
    [SetPrecision NanoSecPerMilliSec;
     ReportLog 2 "HiDesDevice: get system precision of %'d non-second" [AInt prec]] in
  let modeRequest := IOCTL_ITE_MOD_ENABLETXMODE 1 in
  let r1 := ioctl (fd g) modeRequest in
  if ioctl_failed r1 then
    (false, g,
     ev0 ++ [Ioctl (fd g) modeRequest;
             ReportError "error enabling transmission: %s"
               [AStr (HiDesErrorMessage (io_error r1) (io_errno r1))]])
  else
    let startRequest := IOCTL_ITE_MOD_STARTTRANSFER in
    let r2 := ioctl (fd g) startRequest in
    if ioctl_failed r2 then
      (false, g,
       ev0 ++ [Ioctl (fd g) modeRequest; Ioctl (fd g) startRequest;
               ReportError "error starting transmission: %s"
                 [AStr (HiDesErrorMessage (io_error r2) (io_errno r2))]])
    else
      let g := set_transmitting true g in
      let g := set_pkt_sent 0 g in
      let g := set_all_write 0 g in
      let g := set_fail_write 0 g in
      (true, g, ev0 ++ [Ioctl (fd g) modeRequest; Ioctl (fd g) startRequest]).

(** [ts::HiDesDevice::Guts::stopTransmission] *)
Definition stopTransmission (g : t) : result :=
  let stopRequest := IOCTL_ITE_MOD_STOPTRANSFER in
  let r1 := ioctl (fd g) stopRequest in
  if ioctl_failed r1 then
    (false, g,
     [Ioctl (fd g) stopRequest;
      ReportError "error stopping transmission: %s"
        [AStr (HiDesErrorMessage (io_error r1) (io_errno r1))]])
  else
    let modeRequest := IOCTL_ITE_MOD_ENABLETXMODE 0 in
    let r2 := ioctl (fd g) modeRequest in
    if ioctl_failed r2 then
      (false, g,
       [Ioctl (fd g) stopRequest; Ioctl (fd g) modeRequest;
        ReportError "error disabling transmission: %s"
          [AStr (HiDesErrorMessage (io_error r2) (io_errno r2))]])
    else
      let g := set_transmitting false g in
      (true, g, [Ioctl (fd g) stopRequest; Ioctl (fd g) modeRequest]).

(** The head of [send]: the pacing baseline.  [now] is the reading
    of the monotonic clock ([getSystemTime]) made there. *)
Definition resync (g : t) (now : Z) : t * list Event :=
  if negb (bitrate g =? 0) then
    if pkt_sent g =? 0 then
      (set_due_time now g, [])
    else if due_time g <? now then
      (set_pkt_sent 0 (set_due_time now g),
       [ReportLog 2 "HiDesDevice: late by %'d nano-seconds" [AInt (now - due_time g)]])
    else (g, [])
  else (g, []).

(** [const ::useconds_t error_delay = 100;] *)
Definition error_delay : Z := 100.

(** [const size_t max_retry = 100;] *)
Definition max_retry : Z := 100.

(** [(burst * 8 * PKT_SIZE * NanoSecPerSec) / NanoSecond(bitrate)],
    an unsigned 64-bit product and quotient. *)
Definition due_time_advance (burst bitrate : Z) : Z :=
  wrap64 (burst * 8 * PKT_SIZE * NanoSecPerSec) / bitrate.

(** The [while (remain > 0)] loop of [send].  Each turn makes one
    [write(2)] call and reads its result from [script].  [data] is
    the cursor, in bytes from the start of the caller's buffer.
    [err] is [errno] as saved right after the write; the test
    against [EINTR] reads [errno] itself, after the log line.
    [retry_count] stays within
    [max_retry], and [burst] within [remain]: these are plain
    sums and differences. *)
Fixpoint send_loop (script : list WriteResult) (g : t)
                   (data remain retry_count : Z) : outcome :=
  if 0 <? remain then
    match script with
    | [] => None
    | res :: script' =>
        let burst := Z.min remain ITE_MAX_SEND_BYTES in
        let wait :=
          if (retry_count =? 0) && negb (bitrate g =? 0)
          then [Wait (due_time g)] else [] in
        let status := wr_status res in
        let err := wr_errno res in
        let errno := wr_errno_after_log res in
        let g := set_all_write (wrap64 (all_write g + 1)) g in
        let g :=
          if negb (status =? 0)
          then set_fail_write (wrap64 (fail_write g + 1)) g else g in
        let evs :=
          wait ++
          [Write (fd g) data burst res;
           ReportLog 2
             "HiDesDevice:: write = %d, errno = %d, after %d fail (total write: %'d, failed: %'d))"
             [AInt status; AInt err; AInt retry_count;
              AInt (all_write g); AInt (fail_write g)]] in
        if status =? 0 then
          let g := set_pkt_sent (wrap64 (pkt_sent g + burst)) g in
          let g :=
            if negb (bitrate g =? 0)
            then set_due_time (due_time g + due_time_advance burst (bitrate g)) g
            else g in
          emit evs (send_loop script' g (data + burst) (remain - burst) 0)
        else if errno =? EINTR then
          emit (evs ++ [ReportDebug "HiDesDevice::send: interrupted by signal, retrying"])
               (send_loop script' g data remain retry_count)
        else if retry_count <? max_retry then
          emit (evs ++ [Usleep error_delay])
               (send_loop script' g data remain (retry_count + 1))
        else
          Some (false, g,
                evs ++ [ReportError "error sending data: %s"
                          [AStr (HiDesErrorMessage status err)]])
    end
  else Some (true, g, []).

(** [ts::HiDesDevice::Guts::send] *)
Definition send (g : t) (now : Z) (packet_count : Z)
                (script : list WriteResult) : outcome :=
  if negb (transmitting g) then
    Some (false, g, [ReportError "transmission not started" []])
  else
    let '(g, evs) := resync g now in
    let remain := wrap64 (packet_count * PKT_SIZE) in
    emit (evs ++ [ReportLog 2 "HiDesDevice: send %d packets, bitrate = %'d b/s"
                    [AInt packet_count; AInt (bitrate g)]])
         (send_loop script g 0 remain 0).

End WithPlatform.

End Guts.

(** ** The public class *)

Module HiDesDevice.

Record t := mk {
  _is_open : bool;
  _guts : Guts.t
}.

Definition result : Type := bool * t * list Event.

Definition not_open (d : t) : result :=
  (false, d, [ReportError "HiDes device not open" []]).

(** The four [switch] statements of [tune] on the modulation
    parameters; [None] is the [default:] label. *)
Definition switch_modulation (m : Modulation) : option Constellation :=
  match m with
  | QPSK => Some Mode_QPSK
  | QAM_16 => Some Mode_16QAM
  | QAM_64 => Some Mode_64QAM
  | Modulation_other _ => None
  end.

Definition switch_fec_hp (f : InnerFEC) : option CodeRate :=
  match f with
  | FEC_1_2 => Some CodeRate_1_OVER_2
  | FEC_2_3 => Some CodeRate_2_OVER_3
  | FEC_3_4 => Some CodeRate_3_OVER_4
  | FEC_5_6 => Some CodeRate_5_OVER_6
  | FEC_7_8 => Some CodeRate_7_OVER_8
  | InnerFEC_other _ => None
  end.

Definition switch_guard_interval (gi : GuardInterval) : option Interval :=
  match gi with
  | GUARD_1_32 => Some Interval_1_OVER_32
  | GUARD_1_16 => Some Interval_1_OVER_16
  | GUARD_1_8 => Some Interval_1_OVER_8
  | GUARD_1_4 => Some Interval_1_OVER_4
  | GuardInterval_other _ => None
  end.

Definition switch_transmission_mode (tm : TransmissionMode) : option TransmissionModeCode :=
  match tm with
  | TM_2K => Some TransmissionMode_2K
  | TM_4K => Some TransmissionMode_4K
  | TM_8K => Some TransmissionMode_8K
  | TransmissionMode_other _ => None
  end.

(** The [switch] on the spectral inversion: the pair is
    [(setInversion, invRequest.isInversion)]. *)
Definition switch_inversion (i : SpectralInversion) : option (bool * bool) :=
  match i with
  | SPINV_OFF => Some (true, false)
  | SPINV_ON => Some (true, true)
  | SPINV_AUTO => Some (false, false)
  | SpectralInversion_other _ => None
  end.

Section WithPlatform.
Context {P : Platform}.

(** [ts::HiDesDevice::tune] *)
Definition tune (d : t) (params : TunerParametersDVBT) : result :=
  if negb (_is_open d) then not_open d else
  let fd := Guts.fd (_guts d) in
  let acq_frequency := wrap32 (frequency params / 1000) in
  let acq_bandwidth := bandwidth_field (BandWidthValueHz (bandwidth params) / 1000) in
  if acq_bandwidth =? 0 then (false, d, [ReportError "unsupported bandwidth" []]) else
  match switch_modulation (modulation params) with
  | None => (false, d, [ReportError "unsupported constellation" []])
  | Some constellation =>
  match switch_fec_hp (fec_hp params) with
  | None => (false, d, [ReportError "unsupported high priority code rate" []])
  | Some highCodeRate =>
  match switch_guard_interval (guard_interval params) with
  | None => (false, d, [ReportError "unsupported guard interval" []])
  | Some interval =>
  match switch_transmission_mode (transmission_mode params) with
  | None => (false, d, [ReportError "unsupported transmission mode" []])
  | Some transmissionMode =>
  match switch_inversion (inversion params) with
  | None => (false, d, [ReportError "unsupported spectral inversion" []])
  | Some (setInversion, isInversion) =>
    let acqRequest := IOCTL_ITE_MOD_ACQUIRECHANNEL acq_frequency acq_bandwidth in
    let modRequest :=
      IOCTL_ITE_MOD_SETMODULE constellation highCodeRate interval transmissionMode in
    let invRequest := IOCTL_ITE_MOD_SETSPECTRALINVERSION isInversion in
    let r1 := ioctl fd acqRequest in
    if ioctl_failed r1 then
      (false, d,
       [Ioctl fd acqRequest;
        ReportError "error setting frequency & bandwidth: %s"
          [AStr (Guts.HiDesErrorMessage (io_error r1) (io_errno r1))]])
    else
    let r2 := ioctl fd modRequest in
    if ioctl_failed r2 then
      (false, d,
       [Ioctl fd acqRequest; Ioctl fd modRequest;
        ReportError "error setting modulation parameters: %s"
          [AStr (Guts.HiDesErrorMessage (io_error r2) (io_errno r2))]])
    else
    let r3 := ioctl fd invRequest in
    if setInversion && ioctl_failed r3 then
      (false, d,
       [Ioctl fd acqRequest; Ioctl fd modRequest; Ioctl fd invRequest;
        ReportError "error setting spectral inversion: %s"
          [AStr (Guts.HiDesErrorMessage (io_error r3) (io_errno r3))]])
    else
      (true,
       mk (_is_open d) (Guts.set_bitrate (theoreticalBitrate params) (_guts d)),
       [Ioctl fd acqRequest; Ioctl fd modRequest] ++
       (if setInversion then [Ioctl fd invRequest] else []))
  end end end end end.

(** Put the new internal state back into the device. *)
Definition with_guts (d : t) (r : Guts.result) : result :=
  let '(ok, g, tr) := r in (ok, mk (_is_open d) g, tr).

(** [ts::HiDesDevice::startTransmission] *)
Definition startTransmission (d : t) : result :=
  if negb (_is_open d) then not_open d
  else with_guts d (Guts.startTransmission (_guts d)).

(** [ts::HiDesDevice::stopTransmission] *)
Definition stopTransmission (d : t) : result :=
  if negb (_is_open d) then not_open d
  else with_guts d (Guts.stopTransmission (_guts d)).

(** [ts::HiDesDevice::send] *)
Definition send (d : t) (now : Z) (packet_count : Z)
                (script : list WriteResult) : option result :=
  if negb (_is_open d) then Some (not_open d)
  else option_map (with_guts d) (Guts.send (_guts d) now packet_count script).

End WithPlatform.

End HiDesDevice.

(** ** Concrete platforms, for evaluating the operations *)

(** A device that accepts every control command. *)
Definition accepting_platform : Platform := {|
  DVBNameFromSection := fun _ _ _ => "0x3B (buffer full)";
  ErrorCodeMessage := fun _ => "Input/output error";
  BandWidthValueHz := fun bw => bw;
  bandwidth_field := fun z => z;
  theoreticalBitrate := fun _ => 1504000;
  Monotonic_SetPrecision := fun requested => requested;
  ioctl := fun _ _ => mkIoctlResult 0 0 0
|}.

(** A device that rejects the stop-transfer command and accepts the
    other ones. *)
Definition stop_rejecting_platform : Platform := {|
  DVBNameFromSection := fun _ _ _ => "0x3B (buffer full)";
  ErrorCodeMessage := fun _ => "Input/output error";
  BandWidthValueHz := fun bw => bw;
  bandwidth_field := fun z => z;
  theoreticalBitrate := fun _ => 1504000;
  Monotonic_SetPrecision := fun requested => requested;
  ioctl := fun _ req =>
    match req with
    | IOCTL_ITE_MOD_STOPTRANSFER => mkIoctlResult (-1) 0 5
    | _ => mkIoctlResult 0 0 0
    end
|}.

(** A session that is open and transmitting, paced at 1504000 b/s (one
    packet per millisecond), with nothing sent yet. *)
Definition paced_guts : Guts.t := Guts.mk 3 true 1504000 0 0 0 0.

(** The same session with pacing disabled. *)
Definition unpaced_guts : Guts.t := Guts.mk 3 true 0 0 0 0 0.

(** An open session that is not transmitting. *)
Definition idle_guts : Guts.t := Guts.mk 3 false 1504000 0 0 0 0.

(** A write that the driver accepts, and one that it refuses with the
    "buffer full" status. *)
Definition write_ok : WriteResult := mkWriteResult 0 0 0.
Definition write_full : WriteResult := mkWriteResult 59 11 11.

(** The [write(2)] calls of a list of events, as (cursor, size) pairs. *)
Definition writes_of (tr : list Event) : list (Z * Z) :=
  flat_map (fun e => match e with Write _ data burst _ => [(data, burst)] | _ => [] end) tr.

(** The control commands of a list of events. *)
Definition ioctls_of (tr : list Event) : list Request :=
  flat_map (fun e => match e with Ioctl _ req => [req] | _ => [] end) tr.

(** The delays of the [usleep] calls of a list of events. *)
Definition usleeps_of (tr : list Event) : list Z :=
  flat_map (fun e => match e with Usleep us => [us] | _ => [] end) tr.

(** ** One turn of the loop of [send], for the statements below *)

(** The state after a write that the driver accepted. *)
Definition after_accepted (g : Guts.t) (burst : Z) : Guts.t :=
  Guts.mk (Guts.fd g) (Guts.transmitting g) (Guts.bitrate g)
    (if Guts.bitrate g =? 0 then Guts.due_time g
     else Guts.due_time g + Guts.due_time_advance burst (Guts.bitrate g))
    (wrap64 (Guts.pkt_sent g + burst))
    (wrap64 (Guts.all_write g + 1))
    (Guts.fail_write g).

(** The state after a write that the driver refused. *)
Definition after_refused (g : Guts.t) : Guts.t :=
  Guts.mk (Guts.fd g) (Guts.transmitting g) (Guts.bitrate g)
    (Guts.due_time g) (Guts.pkt_sent g)
    (wrap64 (Guts.all_write g + 1))
    (wrap64 (Guts.fail_write g + 1)).

(** The deadline wait before the first attempt at a chunk. *)
Definition first_wait (g : Guts.t) (retry_count : Z) : list Event :=
  if (retry_count =? 0) && negb (Guts.bitrate g =? 0)
  then [Wait (Guts.due_time g)] else [].

(** The log line after a write; [g] is the state after the write. *)
Definition write_log (res : WriteResult) (retry_count : Z) (g : Guts.t) : Event :=
  ReportLog 2
    "HiDesDevice:: write = %d, errno = %d, after %d fail (total write: %'d, failed: %'d))"
    [AInt (wr_status res); AInt (wr_errno res); AInt retry_count;
     AInt (Guts.all_write g); AInt (Guts.fail_write g)].

(** A write that is neither accepted nor taken as interrupted by a
    signal: a non-zero status, and an [errno] other than [EINTR] when
    the loop tests it. *)
Definition is_refusal (res : WriteResult) : Prop :=
  wr_status res <> 0 /\ wr_errno_after_log res <> EINTR.

(** The chunks of the specification, in bytes: [full] chunks of the
    maximal size from the cursor [data] on, then one of [rest] bytes
    unless [rest] is zero. *)
Fixpoint chunks_spec (full : nat) (data rest : Z) : list (Z * Z) :=
  match full with
  | O => if 0 <? rest then [(data, rest)] else []
  | S full' =>
      (data, ITE_MAX_SEND_BYTES) :: chunks_spec full' (data + ITE_MAX_SEND_BYTES) rest
  end.

(** The chunk sizes of the specification for a request of [n] packets,
    in packets. *)
Definition chunk_sizes_spec (n : Z) : list Z :=
  repeat ITE_MAX_SEND_PACKETS (Z.to_nat (n / ITE_MAX_SEND_PACKETS)) ++
  (if 0 <? n mod ITE_MAX_SEND_PACKETS then [n mod ITE_MAX_SEND_PACKETS] else []).

(** The state after [k] accepted chunks of the maximal size. *)
Fixpoint after_chunks (k : nat) (g : Guts.t) : Guts.t :=
  match k with
  | O => g
  | S k' => after_chunks k' (after_accepted g ITE_MAX_SEND_BYTES)
  end.

(** The [write(2)] calls that the driver accepted. *)
Definition accepted_writes_of (tr : list Event) : list (Z * Z) :=
  flat_map (fun e => match e with
                     | Write _ data burst res =>
                         if wr_status res =? 0 then [(data, burst)] else []
                     | _ => []
                     end) tr.

(** The texts that [tune] reports for a parameter it does not support. *)
Definition unsupported_messages : list string :=
  ["unsupported bandwidth"; "unsupported constellation";
   "unsupported high priority code rate"; "unsupported guard interval";
   "unsupported transmission mode"; "unsupported spectral inversion"].

(** ** Further observations on a list of events *)

(** The range of an unsigned 64-bit member. *)
Definition uint64 (z : Z) : Prop := 0 <= z < 2 ^ 64.

(** The [write(2)] calls that returned a non-zero status. *)
Definition failed_writes_of (tr : list Event) : list (Z * Z) :=
  flat_map (fun e => match e with
                     | Write _ data burst res =>
                         if wr_status res =? 0 then [] else [(data, burst)]
                     | _ => []
                     end) tr.

(** The deadlines of the waits of a list of events. *)
Definition waits_of (tr : list Event) : list Z :=
  flat_map (fun e => match e with Wait due => [due] | _ => [] end) tr.

(** A write that the loop takes as interrupted by a signal: a non-zero
    status, and [errno] equal to [EINTR] when the loop tests it. *)
Definition is_interrupt (res : WriteResult) : Prop :=
  wr_status res <> 0 /\ wr_errno_after_log res = EINTR.

(** The time that the loop of [send] adds to the due-time for [remain]
    bytes: one advance for each chunk. *)
Definition pacing_time (bitrate remain : Z) : Z :=
  if bitrate =? 0 then 0
  else remain / ITE_MAX_SEND_BYTES * Guts.due_time_advance ITE_MAX_SEND_BYTES bitrate
       + Guts.due_time_advance (remain mod ITE_MAX_SEND_BYTES) bitrate.

(** Deadlines that start at [due] and are [adv] apart, [k] of them. *)
Fixpoint deadlines_spec (k : nat) (due adv : Z) : list Z :=
  match k with
  | O => []
  | S k' => due :: deadlines_spec k' (due + adv) adv
  end.

(** A write that a signal interrupted, as the driver reports it. *)
Definition write_interrupted : WriteResult := mkWriteResult (-1) EINTR EINTR.

(** ** Opening, closing and querying the device

    The rest of the file: the device names, [open], [close], [getInfo]
    and the gain services.  The internal state of the claims above is
    kept as it is; the [info] member stands beside it. *)

From Stdlib Require Import Ascii.

(** [uint16_t] and [int]. *)
Definition wrap16 (z : Z) : Z := z mod 2 ^ 16.
Definition to_int (z : Z) : Z := (z + 2 ^ 31) mod 2 ^ 32 - 2 ^ 31.

(** Modelled from the spec: the class [HiDesDeviceInfo] is not among
    the sources; these are the members that the file assigns. *)
Module HiDesDeviceInfo.
Record t := mk {
  index : Z;
  name : string;
  path : string;
  chip_type : Z;
  device_type : Z;
  driver_version : string;
  api_version : string;
  link_fw_version : string;
  ofdm_fw_version : string;
  company : string;
  hw_info : string
}.
End HiDesDeviceInfo.

(** The character arrays of the driver information request. *)
Record TxModDriverInfo := mkTxModDriverInfo {
  DriverVerion : list ascii;
  APIVerion : list ascii;
  FWVerionLink : list ascii;
  FWVerionOFDM : list ascii;
  Company : list ascii;
  SupportHWInfo : list ascii
}.

(** The information and gain commands, with the fields the program
    fills in. *)
Inductive Query :=
| IOCTL_ITE_MOD_GETCHIPTYPE
| IOCTL_ITE_MOD_GETDEVICETYPE
| IOCTL_ITE_MOD_GETDRIVERINFO
| IOCTL_ITE_MOD_ADJUSTOUTPUTGAIN (GainValue : Z)
| IOCTL_ITE_MOD_GETOUTPUTGAIN
| IOCTL_ITE_MOD_GETGAINRANGE (frequency bandwidth : Z).

(** The fields that the driver writes into the request of a query; a
    query reads those of its own request. *)
Module Answer.
Record t := mk {
  chipType : Z;
  DeviceType : Z;
  driverInfo : TxModDriverInfo;
  GainValue : Z;
  gain : Z;
  maxGain : Z;
  minGain : Z
}.
End Answer.

(** Functions of the library and of the system that this part calls
    and that are not among the sources. *)
Class Host := {
  (** [::open(path, O_RDWR)]: the descriptor, negative on error, and
      [LastErrorCode()]. *)
  sys_open : string -> Z * Z;
  (** [ExpandWildcard(names, pattern)], the names it finds. *)
  ExpandWildcard : string -> list string;
  (** [BaseName(path)]. *)
  BaseName : string -> string;
  (** [s.contain(sub)]. *)
  contain : string -> string -> bool;
  (** [s.assignFromUTF8(chars)], on the characters of a C string. *)
  assignFromUTF8 : list ascii -> string;
  (** [HiDesDeviceInfo()] and [info.clear()]. *)
  HiDesDeviceInfo_init : HiDesDeviceInfo.t;
  HiDesDeviceInfo_clear : HiDesDeviceInfo.t -> HiDesDeviceInfo.t;
  (** [Monotonic()]. *)
  Monotonic_init : Z;
  (** The implicit conversion to the type of the [bandwidth] field of
      the gain range request. *)
  gain_bandwidth_field : Z -> Z;
  (** [::ioctl(fd, code, &request)] for the queries, called with
      [errno] cleared. *)
  query : Z -> Query -> IoctlResult * Answer.t
}.

(** The calls to the outside of this part; [Device] carries those of
    the operations above. *)
Inductive HostEvent :=
| SysOpen (path : string)
| SysClose (fd : Z)
| SysQuery (fd : Z) (q : Query)
| Device (e : Event).

(** [NULLREP]: what is left of a list of events when the report is the
    null report. *)
Definition null_report (tr : list Event) : list Event :=
  filter (fun e => match e with
                   | ReportError _ _ | ReportLog _ _ _ | ReportDebug _ => false
                   | _ => true
                   end) tr.

(** The characters of the C string at the start of an array. *)
Fixpoint c_str (chars : list ascii) : list ascii :=
  match chars with
  | [] => []
  | c :: rest => if Ascii.eqb c Ascii.zero then [] else c :: c_str rest
  end.

(** [TS_ZCOPY]: write a NUL in the last place of the array, then read
    the C string at its start. *)
Definition TS_ZCOPY (field : list ascii) : list ascii :=
  c_str (removelast field ++ [Ascii.zero]).

(** [names.erase(it)] *)
Definition erase (it : nat) (names : list string) : list string :=
  firstn it names ++ skipn (S it) names.

Module Lifecycle.

(** The internal state with its [info] member. *)
Record guts := mkGuts {
  state : Guts.t;
  info : HiDesDeviceInfo.t
}.

(** The public object: [_is_open] and [_guts]. *)
Record t := mk {
  _is_open : bool;
  _guts : guts
}.

Definition set_index_name_path (i : Z) (n p : string) (x : HiDesDeviceInfo.t) :=
  HiDesDeviceInfo.mk i n p
    (HiDesDeviceInfo.chip_type x) (HiDesDeviceInfo.device_type x)
    (HiDesDeviceInfo.driver_version x) (HiDesDeviceInfo.api_version x)
    (HiDesDeviceInfo.link_fw_version x) (HiDesDeviceInfo.ofdm_fw_version x)
    (HiDesDeviceInfo.company x) (HiDesDeviceInfo.hw_info x).

Definition set_chip_type (v : Z) (x : HiDesDeviceInfo.t) :=
  HiDesDeviceInfo.mk (HiDesDeviceInfo.index x) (HiDesDeviceInfo.name x)
    (HiDesDeviceInfo.path x) v (HiDesDeviceInfo.device_type x)
    (HiDesDeviceInfo.driver_version x) (HiDesDeviceInfo.api_version x)
    (HiDesDeviceInfo.link_fw_version x) (HiDesDeviceInfo.ofdm_fw_version x)
    (HiDesDeviceInfo.company x) (HiDesDeviceInfo.hw_info x).

Definition set_device_type (v : Z) (x : HiDesDeviceInfo.t) :=
  HiDesDeviceInfo.mk (HiDesDeviceInfo.index x) (HiDesDeviceInfo.name x)
    (HiDesDeviceInfo.path x) (HiDesDeviceInfo.chip_type x) v
    (HiDesDeviceInfo.driver_version x) (HiDesDeviceInfo.api_version x)
    (HiDesDeviceInfo.link_fw_version x) (HiDesDeviceInfo.ofdm_fw_version x)
    (HiDesDeviceInfo.company x) (HiDesDeviceInfo.hw_info x).

Definition set_fd (v : Z) (s : Guts.t) : Guts.t :=
  Guts.mk v (Guts.transmitting s) (Guts.bitrate s) (Guts.due_time s)
    (Guts.pkt_sent s) (Guts.all_write s) (Guts.fail_write s).

Section WithHost.
Context {P : Platform} {H : Host}.

(** The loop of [GetAllDeviceNames]: [it] is the place of the iterator
    in [names]; each turn either erases the name there or steps over
    it.  [fuel] bounds the number of turns. *)
Fixpoint erase_loop (fuel : nat) (names : list string) (it : nat) : list string :=
  match fuel with
  | O => names
  | S fuel' =>
      match nth_error names it with
      | None => names
      | Some s =>
          if contain s "-rx"
          then erase_loop fuel' (erase it names) it
          else erase_loop fuel' names (S it)
      end
  end.

(** [ts::HiDesDevice::Guts::GetAllDeviceNames]; the loop makes at most
    one turn for each name. *)
Definition GetAllDeviceNames : list string :=
  let names := ExpandWildcard "/dev/usb-it95?x*" in
  erase_loop (List.length names) names 0.

(** [ts::HiDesDevice::Guts::close] *)
Definition Guts_close (g : guts) : guts * list HostEvent :=
  let s := state g in
  let '(s, evs) :=
    if 0 <=? Guts.fd s then
      let '(s, evs) :=
        if Guts.transmitting s then
          let '(_, s', tr) := Guts.stopTransmission s in
          (s', map Device (null_report tr))
        else (s, []) in
      (s, evs ++ [SysClose (Guts.fd s)])
    else (s, []) in
  let s := Guts.set_transmitting false s in
  let s := set_fd (-1) s in
  (mkGuts s (info g), evs).

(** The three queries of [Guts::open] after the device file is open:
    each one is made, whatever the result of the ones before. *)
Definition identify (fd : Z) (x : HiDesDeviceInfo.t)
  : bool * HiDesDeviceInfo.t * list HostEvent :=
  let status := true in
  let '(r1, a1) := query fd IOCTL_ITE_MOD_GETCHIPTYPE in
  let '(status, x, ev1) :=
    if ioctl_failed r1 then
      (false, x,
       [Device (ReportError "error getting chip type on %s: %s"
                  [AStr (HiDesDeviceInfo.path x);
                   AStr (Guts.HiDesErrorMessage (io_error r1) (io_errno r1))])])
    else (status, set_chip_type (wrap16 (Answer.chipType a1)) x, []) in
  let '(r2, a2) := query fd IOCTL_ITE_MOD_GETDEVICETYPE in
  let '(status, x, ev2) :=
    if ioctl_failed r2 then
      (false, x,
       [Device (ReportError "error getting device type on %s: %s"
                  [AStr (HiDesDeviceInfo.path x);
                   AStr (Guts.HiDesErrorMessage (io_error r2) (io_errno r2))])])
    else (status, set_device_type (to_int (Answer.DeviceType a2)) x, []) in
  let '(r3, a3) := query fd IOCTL_ITE_MOD_GETDRIVERINFO in
  let '(status, x, ev3) :=
    if ioctl_failed r3 then
      (false, x,
       [Device (ReportError "error getting driver info on %s: %s"
                  [AStr (HiDesDeviceInfo.path x);
                   AStr (Guts.HiDesErrorMessage (io_error r3) (io_errno r3))])])
    else
      let d := Answer.driverInfo a3 in
      (status,
       HiDesDeviceInfo.mk (HiDesDeviceInfo.index x) (HiDesDeviceInfo.name x)
         (HiDesDeviceInfo.path x) (HiDesDeviceInfo.chip_type x)
         (HiDesDeviceInfo.device_type x)
         (assignFromUTF8 (TS_ZCOPY (DriverVerion d)))
         (assignFromUTF8 (TS_ZCOPY (APIVerion d)))
         (assignFromUTF8 (TS_ZCOPY (FWVerionLink d)))
         (assignFromUTF8 (TS_ZCOPY (FWVerionOFDM d)))
         (assignFromUTF8 (TS_ZCOPY (Company d)))
         (assignFromUTF8 (TS_ZCOPY (SupportHWInfo d))),
       []) in
  (status, x,
   [SysQuery fd IOCTL_ITE_MOD_GETCHIPTYPE] ++ ev1 ++
   [SysQuery fd IOCTL_ITE_MOD_GETDEVICETYPE] ++ ev2 ++
   [SysQuery fd IOCTL_ITE_MOD_GETDRIVERINFO] ++ ev3).

(** [ts::HiDesDevice::Guts::open] *)
Definition Guts_open (g : guts) (index : Z) (name : string)
  : bool * guts * list HostEvent :=
  let x := HiDesDeviceInfo_clear (info g) in
  let x := set_index_name_path index (BaseName name) name x in
  let '(fd, err) := sys_open name in
  let s := set_fd fd (state g) in
  if fd <? 0 then
    (false, mkGuts s x,
     [SysOpen name;
      Device (ReportError "error opening %s: %s"
                [AStr name; AStr (ErrorCodeMessage err)])])
  else
    let '(status, x, evs) := identify fd x in
    if negb status then
      let '(g', evc) := Guts_close (mkGuts s x) in
      (status, g', [SysOpen name] ++ evs ++ evc)
    else (status, mkGuts s x, [SysOpen name] ++ evs).

(** [ts::HiDesDevice::open(int index, Report&)] *)
Definition open_by_index (d : t) (index : Z) : bool * t * list HostEvent :=
  if _is_open d then
    (false, d,
     [Device (ReportError "%s already open"
                [AStr (HiDesDeviceInfo.path (info (_guts d)))])])
  else
    let names := GetAllDeviceNames in
    if (index <? 0) || (Z.of_nat (List.length names) <=? index) then
      (false, d, [Device (ReportError "HiDes adapter %s not found" [AInt index])])
    else
      let '(ok, g, evs) := Guts_open (_guts d) index (nth (Z.to_nat index) names "") in
      (ok, mk ok g, evs).

(** [ts::HiDesDevice::open(const UString& name, Report&)] *)
Definition open_by_name (d : t) (name : string) : bool * t * list HostEvent :=
  if _is_open d then
    (false, d,
     [Device (ReportError "%s already open"
                [AStr (HiDesDeviceInfo.path (info (_guts d)))])])
  else
    let '(ok, g, evs) := Guts_open (_guts d) (-1) name in
    (ok, mk ok g, evs).

(** [ts::HiDesDevice::getInfo]; [out] is the caller's object. *)
Definition getInfo (d : t) (out : HiDesDeviceInfo.t)
  : bool * HiDesDeviceInfo.t * list HostEvent :=
  if _is_open d then (true, info (_guts d), [])
  else (false, out, [Device (ReportError "HiDes device not open" [])]).

(** [ts::HiDesDevice::close] *)
Definition close (d : t) : bool * t * list HostEvent :=
  let '(g, evs) := Guts_close (_guts d) in
  (true, mk false g, evs).

(** [Guts::Guts()] *)
Definition Guts_init : guts :=
  mkGuts (Guts.mk (-1) false 0 Monotonic_init 0 0 0) HiDesDeviceInfo_init.

(** The loop of [GetAllDevices] from [index] on: a fresh internal
    state for each name, opened, its [info] pushed, then closed, and
    closed again when it is destroyed. *)
Fixpoint GetAllDevices_loop (index : Z) (names : list string)
  : list HiDesDeviceInfo.t * list HostEvent :=
  match names with
  | [] => ([], [])
  | name :: names' =>
      let '(_, g, ev1) := Guts_open Guts_init index name in
      let '(g, ev2) := Guts_close g in
      let '(g, ev3) := Guts_close g in
      let '(devices, evs) := GetAllDevices_loop (index + 1) names' in
      (info g :: devices, ev1 ++ ev2 ++ ev3 ++ evs)
  end.

(** [ts::HiDesDevice::GetAllDevices] *)
Definition GetAllDevices : bool * list HiDesDeviceInfo.t * list HostEvent :=
  let '(devices, evs) := GetAllDevices_loop 0 GetAllDeviceNames in
  (true, devices, evs).

(** [ts::HiDesDevice::setGain]; the result carries the caller's
    [gain] after the call. *)
Definition setGain (d : t) (gain : Z) : bool * Z * list HostEvent :=
  if negb (_is_open d) then
    (false, gain, [Device (ReportError "HiDes device not open" [])])
  else
    let fd := Guts.fd (state (_guts d)) in
    let request := IOCTL_ITE_MOD_ADJUSTOUTPUTGAIN gain in
    let '(r, a) := query fd request in
    if ioctl_failed r then
      (false, gain,
       [SysQuery fd request;
        Device (ReportError "error setting gain on %s: %s"
                  [AStr (HiDesDeviceInfo.path (info (_guts d)));
                   AStr (Guts.HiDesErrorMessage (io_error r) (io_errno r))])])
    else (true, Answer.GainValue a, [SysQuery fd request]).

(** [ts::HiDesDevice::getGain] *)
Definition getGain (d : t) (gain : Z) : bool * Z * list HostEvent :=
  let gain := 0 in
  if negb (_is_open d) then
    (false, gain, [Device (ReportError "HiDes device not open" [])])
  else
    let fd := Guts.fd (state (_guts d)) in
    let request := IOCTL_ITE_MOD_GETOUTPUTGAIN in
    let '(r, a) := query fd request in
    if ioctl_failed r then
      (false, gain,
       [SysQuery fd request;
        Device (ReportError "error getting gain on %s: %s"
                  [AStr (HiDesDeviceInfo.path (info (_guts d)));
                   AStr (Guts.HiDesErrorMessage (io_error r) (io_errno r))])])
    else (true, Answer.gain a, [SysQuery fd request]).

(** [ts::HiDesDevice::getGainRange]; the result carries
    [(minGain, maxGain)] after the call. *)
Definition getGainRange (d : t) (minGain0 maxGain0 : Z) (frequency : Z)
           (bandwidth : BandWidth) : bool * (Z * Z) * list HostEvent :=
  let range := (0, 0) in
  if negb (_is_open d) then
    (false, range, [Device (ReportError "HiDes device not open" [])])
  else
    let fd := Guts.fd (state (_guts d)) in
    let req_frequency := wrap32 (frequency / 1000) in
    let req_bandwidth := gain_bandwidth_field (BandWidthValueHz bandwidth / 1000) in
    if req_bandwidth =? 0 then
      (false, range, [Device (ReportError "unsupported bandwidth" [])])
    else
      let request := IOCTL_ITE_MOD_GETGAINRANGE req_frequency req_bandwidth in
      let '(r, a) := query fd request in
      if ioctl_failed r then
        (false, range,
         [SysQuery fd request;
          Device (ReportError "error getting gain range on %s: %s"
                    [AStr (HiDesDeviceInfo.path (info (_guts d)));
                     AStr (Guts.HiDesErrorMessage (io_error r) (io_errno r))])])
      else (true, (Answer.minGain a, Answer.maxGain a), [SysQuery fd request]).

End WithHost.

End Lifecycle.

(** ** Observations on the events of this part *)

Definition opens_of (tr : list HostEvent) : list string :=
  flat_map (fun e => match e with SysOpen p => [p] | _ => [] end) tr.

Definition closes_of (tr : list HostEvent) : list Z :=
  flat_map (fun e => match e with SysClose fd => [fd] | _ => [] end) tr.

Definition queries_of (tr : list HostEvent) : list Query :=
  flat_map (fun e => match e with SysQuery _ q => [q] | _ => [] end) tr.

(** The events of the operations above, among those of this part. *)
Definition device_events_of (tr : list HostEvent) : list Event :=
  flat_map (fun e => match e with Device e' => [e'] | _ => [] end) tr.

(** The reports of a list of events. *)
Definition is_report (e : Event) : bool :=
  match e with
  | ReportError _ _ | ReportLog _ _ _ | ReportDebug _ => true
  | _ => false
  end.

(** The descriptor is valid exactly when the object is open, and a
    transmission is in progress only on an open object. *)
Definition handle_ok (is_open : bool) (s : Guts.t) : Prop :=
  (is_open = true <-> 0 <= Guts.fd s) /\
  (Guts.transmitting s = true -> is_open = true).

(** A host with two modulators and one receiver; the second modulator
    cannot be opened. *)
Definition two_modulators_host : Host := {|
  sys_open := fun p =>
    if String.eqb p "/dev/usb-it950x0" then (3, 0) else (-1, 13);
  ExpandWildcard := fun _ =>
    ["/dev/usb-it950x0"; "/dev/usb-it950x0-rx"; "/dev/usb-it950x1"];
  BaseName := fun p => p;
  contain := fun s sub =>
    match String.index 0 sub s with Some _ => true | None => false end;
  assignFromUTF8 := string_of_list_ascii;
  HiDesDeviceInfo_init := HiDesDeviceInfo.mk (-1) "" "" 0 0 "" "" "" "" "" "";
  HiDesDeviceInfo_clear := fun _ => HiDesDeviceInfo.mk (-1) "" "" 0 0 "" "" "" "" "" "";
  Monotonic_init := 0;
  gain_bandwidth_field := fun z => z;
  query := fun _ _ =>
    (mkIoctlResult 0 0 0,
     Answer.mk 38224 1
       (mkTxModDriverInfo
          (list_ascii_of_string "v16.11.10.1") (list_ascii_of_string "1.3.20160929.0")
          (list_ascii_of_string "255.39.2.0") (list_ascii_of_string "255.9.11.0")
          (list_ascii_of_string "ITEtech") (list_ascii_of_string "Eagle DVBT"))
       (-10) (-10) 6 (-52))
|}.

(** A closed object, as it is built. *)
Definition closed_device : Lifecycle.t :=
  Lifecycle.mk false (Lifecycle.Guts_init (H := two_modulators_host)).

(** The commands that [stopTransmission] issues on descriptor [fd]. *)
Definition stop_commands {P : Platform} (fd : Z) : list Request :=
  if ioctl_failed (ioctl fd IOCTL_ITE_MOD_STOPTRANSFER)
  then [IOCTL_ITE_MOD_STOPTRANSFER]
  else [IOCTL_ITE_MOD_STOPTRANSFER; IOCTL_ITE_MOD_ENABLETXMODE 0].

(** The three queries of [open]. *)
Definition identify_queries : list Query :=
  [IOCTL_ITE_MOD_GETCHIPTYPE; IOCTL_ITE_MOD_GETDEVICETYPE; IOCTL_ITE_MOD_GETDRIVERINFO].

(** Whether query [q] on descriptor [fd] succeeds. *)
Definition query_ok {H : Host} (fd : Z) (q : Query) : bool :=
  negb (ioctl_failed (fst (query fd q))).

(** Consecutive indexes from [index] on, [n] of them. *)
Fixpoint indexes_from (index : Z) (n : nat) : list Z :=
  match n with
  | O => []
  | S n' => index :: indexes_from (index + 1) n'
  end.



(** Events that end with an accepted write and its log line. *)
Definition ends_with_accepted_write (tr : list Event) : Prop :=
  exists tr0 fd data burst res rc g,
    tr = tr0 ++ [Write fd data burst res; write_log res rc g] /\ wr_status res = 0.

(** Events that end with the error report of [send]. *)
Definition ends_with_send_error (tr : list Event) : Prop :=
  exists tr0 msg, tr = tr0 ++ [ReportError "error sending data: %s" [AStr msg]].




(** The waits and the writes of a list of events, in their order. *)
Definition schedule_of (tr : list Event) : list (Z + Z * Z) :=
  flat_map (fun e => match e with
                     | Wait due => [inl due]
                     | Write _ data burst _ => [inr (data, burst)]
                     | _ => []
                     end) tr.

(** A wait before each write, the deadlines [adv] apart from [due]. *)
Fixpoint paced_schedule (due adv : Z) (writes : list (Z * Z)) : list (Z + Z * Z) :=
  match writes with
  | [] => []
  | w :: rest => inl due :: inr w :: paced_schedule (due + adv) adv rest
  end.

(** * Properties *)

(** ** Error text composition *)

Section ErrorText.
Context {P : Platform}.

Lemma empty_true_iff (s : string) : empty s = true <-> s = "".
Proof. destruct s; simpl; split; congruence. Qed.

(** C9.  [HiDesErrorMessage] renders a non-zero device status through
    the name lookup (on its absolute value), and appends the text of
    the host error code exactly when that code is neither zero nor
    equal to the device status, after a comma and a space when the
    status text is there; with both codes zero the text is empty. *)
Theorem HiDesErrorMessage_composition (driver_status errno_status : Z) :
  let status_text := DVBNameFromSection "HiDesError" (Z.abs driver_status) HEXA_FIRST in
  let host_text := ErrorCodeMessage errno_status in
  let msg := Guts.HiDesErrorMessage driver_status errno_status in
  (driver_status = 0 -> errno_status = 0 -> msg = "") /\
  (driver_status <> 0 -> errno_status = 0 \/ errno_status = driver_status ->
   msg = status_text) /\
  (driver_status = 0 -> errno_status <> 0 -> msg = host_text) /\
  (driver_status <> 0 -> errno_status <> 0 -> errno_status <> driver_status ->
   status_text <> "" ->
   msg = (status_text ++ ", " ++ host_text)%string) /\
  (driver_status <> 0 -> errno_status <> 0 -> errno_status <> driver_status ->
   status_text = "" ->
   msg = host_text).
Proof.
  cbv zeta. unfold Guts.HiDesErrorMessage.
  split; [|split; [|split; [|split]]].
  - intros -> ->. reflexivity.
  - intros Hd [-> | ->].
    + apply Z.eqb_neq in Hd. rewrite Hd. reflexivity.
    + rewrite Z.eqb_refl. apply Z.eqb_neq in Hd. rewrite Hd.
      rewrite andb_false_r. reflexivity.
  - intros -> He. apply Z.eqb_neq in He. rewrite He. reflexivity.
  - intros Hd He Hne Hst.
    apply Z.eqb_neq in Hd, He, Hne. rewrite Hd, He, Hne. simpl.
    destruct (empty _) eqn:E.
    + apply empty_true_iff in E. contradiction.
    + simpl. generalize (DVBNameFromSection "HiDesError" (Z.abs driver_status) HEXA_FIRST).
      intro s. induction s as [|c s IH]; simpl; [reflexivity | now rewrite IH].
  - intros Hd He Hne Hst.
    apply Z.eqb_neq in Hd, He, Hne. rewrite Hd, He, Hne. simpl.
    rewrite Hst. reflexivity.
Qed.

End ErrorText.

(** With the "buffer full" status 59 and the host error 11, both texts
    are rendered, the status first. *)
Lemma HiDesErrorMessage_composition_witness :
  59 <> 0 /\ 11 <> 0 /\ 11 <> 59 /\
  Guts.HiDesErrorMessage (P := accepting_platform) 59 11
  = "0x3B (buffer full), Input/output error".
Proof.
  split; [discriminate | split; [discriminate | split; [discriminate |]]].
  destruct (HiDesErrorMessage_composition (P := accepting_platform) 59 11)
    as (_ & _ & _ & H & _).
  apply H; discriminate.
Defined.

(** ** Starting and stopping the transmission *)

Section StartStop.
Context {P : Platform}.

(** C7.  [startTransmission] succeeds exactly when the enable-mode and
    the start-transfer commands both succeed.  It then sets the
    transmitting flag and zeroes the sent-packet counter and the two
    write counters, so that the next paced [send] takes its due-time
    from the clock; on a failure the internal state is the one before
    the call (still not transmitting if it was not) and the error is
    reported. *)
Theorem startTransmission_resets_iff_commands_succeed (g : Guts.t) :
  let enable := ioctl (Guts.fd g) (IOCTL_ITE_MOD_ENABLETXMODE 1) in
  let start := ioctl (Guts.fd g) IOCTL_ITE_MOD_STARTTRANSFER in
  let '(ok, g', tr) := Guts.startTransmission g in
  ok = negb (ioctl_failed enable) && negb (ioctl_failed start) /\
  (if ok then
     g' = Guts.mk (Guts.fd g) true (Guts.bitrate g) (Guts.due_time g) 0 0 0 /\
     (forall now,
        Guts.resync g' now
        = (if Guts.bitrate g =? 0 then g' else Guts.set_due_time now g', []))
   else
     g' = g /\
     exists fmt msg, last tr (Usleep 0) = ReportError fmt [AStr msg]) /\
  ioctls_of tr
  = if ioctl_failed enable then [IOCTL_ITE_MOD_ENABLETXMODE 1]
    else [IOCTL_ITE_MOD_ENABLETXMODE 1; IOCTL_ITE_MOD_STARTTRANSFER].
Proof.
  cbv zeta. unfold Guts.startTransmission.
  destruct (ioctl_failed (ioctl (Guts.fd g) (IOCTL_ITE_MOD_ENABLETXMODE 1))) eqn:E1.
  - simpl. repeat split; eauto.
  - destruct (ioctl_failed (ioctl (Guts.fd g) IOCTL_ITE_MOD_STARTTRANSFER)) eqn:E2.
    + simpl. repeat split; eauto.
    + simpl. repeat split.
      intro now. unfold Guts.resync. simpl.
      destruct (Guts.bitrate g =? 0); reflexivity.
Qed.

(** C3, as the code has it.  On an open session [stopTransmission]
    clears the transmitting flag exactly when the stop-transfer and
    the disable-mode commands both succeed.  When one of them fails
    the call returns failure, the error is reported and the session
    is left as it was; the disable-mode command is not issued after
    a failed stop-transfer. *)
Theorem stopTransmission_clears_iff_commands_succeed (d : HiDesDevice.t) :
  HiDesDevice._is_open d = true ->
  let g := HiDesDevice._guts d in
  let stop := ioctl (Guts.fd g) IOCTL_ITE_MOD_STOPTRANSFER in
  let disable := ioctl (Guts.fd g) (IOCTL_ITE_MOD_ENABLETXMODE 0) in
  let '(ok, d', tr) := HiDesDevice.stopTransmission d in
  ok = negb (ioctl_failed stop) && negb (ioctl_failed disable) /\
  d' = HiDesDevice.mk true (if ok then Guts.set_transmitting false g else g) /\
  (if ok then True
   else exists fmt msg, last tr (Usleep 0) = ReportError fmt [AStr msg]) /\
  ioctls_of tr
  = if ioctl_failed stop then [IOCTL_ITE_MOD_STOPTRANSFER]
    else [IOCTL_ITE_MOD_STOPTRANSFER; IOCTL_ITE_MOD_ENABLETXMODE 0].
Proof.
  intros Hopen. cbv zeta.
  unfold HiDesDevice.stopTransmission, Guts.stopTransmission.
  rewrite Hopen. simpl.
  destruct (ioctl_failed (ioctl _ IOCTL_ITE_MOD_STOPTRANSFER)) eqn:E1.
  - simpl. rewrite Hopen. repeat split; eauto.
  - destruct (ioctl_failed (ioctl _ (IOCTL_ITE_MOD_ENABLETXMODE 0))) eqn:E2.
    + simpl. rewrite Hopen. repeat split; eauto.
    + simpl. rewrite Hopen. repeat split.
Qed.

End StartStop.

(** On a device that accepts the two commands, stopping a transmitting
    session leaves it open and not transmitting. *)
Lemma stopTransmission_clears_iff_commands_succeed_witness :
  HiDesDevice._is_open (HiDesDevice.mk true paced_guts) = true /\
  snd (fst (HiDesDevice.stopTransmission (P := accepting_platform)
              (HiDesDevice.mk true paced_guts)))
  = HiDesDevice.mk true idle_guts.
Proof.
  split; [reflexivity |].
  pose proof (stopTransmission_clears_iff_commands_succeed
                (P := accepting_platform) (HiDesDevice.mk true paced_guts) eq_refl) as H.
  cbv zeta in H.
  destruct (HiDesDevice.stopTransmission (HiDesDevice.mk true paced_guts))
    as [[ok d'] tr].
  destruct H as (-> & -> & _). reflexivity.
Defined.

(** C3, as the specification has it, fails: when the device rejects the
    stop-transfer command, the open session is still transmitting after
    [stopTransmission]. *)
Lemma stopTransmission_failure_keeps_transmitting :
  let d := HiDesDevice.mk true paced_guts in
  HiDesDevice._is_open d = true /\
  HiDesDevice.stopTransmission (P := stop_rejecting_platform) d
  = (false, d,
     [Ioctl 3 IOCTL_ITE_MOD_STOPTRANSFER;
      ReportError "error stopping transmission: %s" [AStr "Input/output error"]]) /\
  Guts.transmitting (HiDesDevice._guts d) = true.
Proof. cbv zeta. repeat split. Qed.

(** ** The pacing baseline at the head of [send] *)

Section Resync.
Context {P : Platform}.

(** [send] on a transmitting session: the baseline check, the log
    line, then the loop on the state the check leaves. *)
Lemma send_unfold (g : Guts.t) (now packet_count : Z) (script : list WriteResult) :
  Guts.transmitting g = true ->
  Guts.send g now packet_count script
  = Guts.emit
      (snd (Guts.resync g now) ++
       [ReportLog 2 "HiDesDevice: send %d packets, bitrate = %'d b/s"
          [AInt packet_count; AInt (Guts.bitrate (fst (Guts.resync g now)))]])
      (Guts.send_loop script (fst (Guts.resync g now)) 0
         (wrap64 (packet_count * PKT_SIZE)) 0).
Proof.
  intros Ht. unfold Guts.send. rewrite Ht. simpl.
  destruct (Guts.resync g now) as [g1 evs]. reflexivity.
Qed.

(** The baseline check changes neither the descriptor, the flag, the
    bit rate nor the write counters. *)
Lemma resync_frame (g : Guts.t) (now : Z) :
  let g' := fst (Guts.resync g now) in
  Guts.fd g' = Guts.fd g /\
  Guts.transmitting g' = Guts.transmitting g /\
  Guts.bitrate g' = Guts.bitrate g /\
  Guts.all_write g' = Guts.all_write g /\
  Guts.fail_write g' = Guts.fail_write g.
Proof.
  unfold Guts.resync.
  destruct (Guts.bitrate g =? 0); simpl; [repeat split |].
  destruct (Guts.pkt_sent g =? 0); simpl; [repeat split |].
  destruct (Guts.due_time g <? now); simpl; repeat split.
Qed.

Lemma writes_of_app (a b : list Event) :
  writes_of (a ++ b) = writes_of a ++ writes_of b.
Proof. apply flat_map_app. Qed.

Lemma usleeps_of_app (a b : list Event) :
  usleeps_of (a ++ b) = usleeps_of a ++ usleeps_of b.
Proof. apply flat_map_app. Qed.

Lemma writes_of_resync (g : Guts.t) (now : Z) :
  writes_of (snd (Guts.resync g now)) = [].
Proof.
  unfold Guts.resync.
  destruct (Guts.bitrate g =? 0); simpl; [reflexivity |].
  destruct (Guts.pkt_sent g =? 0); simpl; [reflexivity |].
  destruct (Guts.due_time g <? now); reflexivity.
Qed.

(** C6.  With pacing enabled and a non-zero sent-packet counter, the
    check at the head of [send] compares the due-time with the clock:
    when the due-time is in the past it becomes the clock reading,
    the counter becomes zero and the lateness is logged; otherwise
    the state is unchanged and nothing is logged.  The loop of [send]
    then runs on the state the check leaves. *)
Theorem send_resync_when_late (g : Guts.t) (now : Z) :
  0 < Guts.bitrate g ->
  Guts.pkt_sent g <> 0 ->
  (Guts.due_time g < now ->
   Guts.resync g now
   = (Guts.mk (Guts.fd g) (Guts.transmitting g) (Guts.bitrate g) now 0
        (Guts.all_write g) (Guts.fail_write g),
      [ReportLog 2 "HiDesDevice: late by %'d nano-seconds"
         [AInt (now - Guts.due_time g)]])) /\
  (now <= Guts.due_time g -> Guts.resync g now = (g, [])) /\
  (forall packet_count script,
     Guts.transmitting g = true ->
     Guts.send g now packet_count script
     = Guts.emit
         (snd (Guts.resync g now) ++
          [ReportLog 2 "HiDesDevice: send %d packets, bitrate = %'d b/s"
             [AInt packet_count; AInt (Guts.bitrate g)]])
         (Guts.send_loop script (fst (Guts.resync g now)) 0
            (wrap64 (packet_count * PKT_SIZE)) 0)).
Proof.
  intros Hb Hp.
  assert (Eb : (Guts.bitrate g =? 0) = false) by (apply Z.eqb_neq; lia).
  assert (Ep : (Guts.pkt_sent g =? 0) = false) by (apply Z.eqb_neq; lia).
  split; [| split].
  - intros Hlate. unfold Guts.resync. rewrite Eb, Ep. simpl.
    apply Z.ltb_lt in Hlate. rewrite Hlate. reflexivity.
  - intros Hnot. unfold Guts.resync. rewrite Eb, Ep. simpl.
    assert (E : (Guts.due_time g <? now) = false) by (apply Z.ltb_ge; lia).
    rewrite E. reflexivity.
  - intros n script Ht. rewrite (send_unfold g now n script Ht).
    destruct (resync_frame g now) as (_ & _ & -> & _). reflexivity.
Qed.

(** C10.  On an open, transmitting session, [send] of zero packets
    succeeds without any [write(2)] call.  The state it leaves is the
    one of the baseline check: the two write counters (and the
    descriptor, the flag and the bit rate) are those before the call. *)
Theorem send_zero_packets (d : HiDesDevice.t) (now : Z) (script : list WriteResult) :
  HiDesDevice._is_open d = true ->
  Guts.transmitting (HiDesDevice._guts d) = true ->
  let g := HiDesDevice._guts d in
  let g' := fst (Guts.resync g now) in
  exists tr,
    HiDesDevice.send d now 0 script = Some (true, HiDesDevice.mk true g', tr) /\
    writes_of tr = [] /\
    Guts.all_write g' = Guts.all_write g /\
    Guts.fail_write g' = Guts.fail_write g /\
    Guts.fd g' = Guts.fd g /\
    Guts.transmitting g' = true /\
    Guts.bitrate g' = Guts.bitrate g.
Proof.
  intros Hopen Ht. cbv zeta.
  unfold HiDesDevice.send. rewrite Hopen. simpl.
  rewrite (send_unfold _ now 0 script Ht).
  change (wrap64 (0 * PKT_SIZE)) with 0.
  destruct script as [| r script]; simpl; rewrite Hopen;
    (eexists; split; [reflexivity |]);
    rewrite app_nil_r, writes_of_app, writes_of_resync;
    destruct (resync_frame (HiDesDevice._guts d) now) as (Hfd & Htr & Hbr & Haw & Hfw);
    rewrite Htr, Ht; simpl; repeat split; assumption.
Qed.

End Resync.

(** A session is 40 ns late after 188 counted units: the due-time
    becomes the clock reading and the counter zero. *)
Lemma send_resync_when_late_witness :
  0 < Guts.bitrate (Guts.mk 3 true 1504000 60 188 1 0) /\
  Guts.pkt_sent (Guts.mk 3 true 1504000 60 188 1 0) <> 0 /\
  Guts.due_time (Guts.mk 3 true 1504000 60 188 1 0) < 100 /\
  fst (Guts.resync (Guts.mk 3 true 1504000 60 188 1 0) 100)
  = Guts.mk 3 true 1504000 100 0 1 0.
Proof.
  split; [reflexivity | split; [discriminate | split; [reflexivity |]]].
  destruct (send_resync_when_late (P := accepting_platform)
              (Guts.mk 3 true 1504000 60 188 1 0) 100) as (H & _).
  - reflexivity.
  - discriminate.
  - rewrite H; reflexivity.
Defined.

(** An empty request on a session that has made three writes. *)
Lemma send_zero_packets_witness :
  HiDesDevice._is_open (HiDesDevice.mk true (Guts.mk 3 true 0 0 564 3 1)) = true /\
  Guts.transmitting (Guts.mk 3 true 0 0 564 3 1) = true /\
  exists tr,
    HiDesDevice.send (P := accepting_platform)
      (HiDesDevice.mk true (Guts.mk 3 true 0 0 564 3 1)) 7 0 [write_full]
    = Some (true, HiDesDevice.mk true (Guts.mk 3 true 0 0 564 3 1), tr) /\
    writes_of tr = [].
Proof.
  split; [reflexivity | split; [reflexivity |]].
  destruct (send_zero_packets (P := accepting_platform)
              (HiDesDevice.mk true (Guts.mk 3 true 0 0 564 3 1)) 7 [write_full]
              eq_refl eq_refl) as (tr & Hs & Hw & _).
  exists tr. split; [exact Hs | exact Hw].
Defined.

(** ** The loop of [send], one turn at a time *)

Section SendLoop.
Context {P : Platform}.

Lemma emit_emit (a b : list Event) (o : Guts.outcome) :
  Guts.emit a (Guts.emit b o) = Guts.emit (a ++ b) o.
Proof.
  destruct o as [[[ok g] tr] |]; simpl; [| reflexivity].
  now rewrite app_assoc.
Qed.

Lemma emit_nil (o : Guts.outcome) : Guts.emit [] o = o.
Proof. destruct o as [[[ok g] tr] |]; reflexivity. Qed.

(** The loop ends at once when nothing remains. *)
Lemma send_loop_done (script : list WriteResult) (g : Guts.t) (data rc : Z) :
  Guts.send_loop script g data 0 rc = Some (true, g, []).
Proof. destruct script; reflexivity. Qed.

(** A turn whose write is accepted. *)
Lemma send_loop_accepted (res : WriteResult) (script : list WriteResult)
      (g : Guts.t) (data remain rc : Z) :
  0 < remain ->
  wr_status res = 0 ->
  let burst := Z.min remain ITE_MAX_SEND_BYTES in
  let g' := after_accepted g burst in
  Guts.send_loop (res :: script) g data remain rc
  = Guts.emit
      (first_wait g rc ++ [Write (Guts.fd g) data burst res; write_log res rc g'])
      (Guts.send_loop script g' (data + burst) (remain - burst) 0).
Proof.
  intros Hr Hs. cbv zeta.
  assert (E : (0 <? remain) = true) by (apply Z.ltb_lt; lia).
  cbn [Guts.send_loop]. rewrite E, Hs. cbn [Z.eqb negb].
  unfold first_wait, write_log, after_accepted. rewrite Hs.
  destruct g as [fd tx br due sent aw fw]; cbn.
  destruct (br =? 0); reflexivity.
Qed.

(** A turn whose write is refused while retries are left. *)
Lemma send_loop_refused (res : WriteResult) (script : list WriteResult)
      (g : Guts.t) (data remain rc : Z) :
  0 < remain ->
  is_refusal res ->
  rc < Guts.max_retry ->
  let burst := Z.min remain ITE_MAX_SEND_BYTES in
  let g' := after_refused g in
  Guts.send_loop (res :: script) g data remain rc
  = Guts.emit
      (first_wait g rc ++
       [Write (Guts.fd g) data burst res; write_log res rc g'; Usleep Guts.error_delay])
      (Guts.send_loop script g' data remain (rc + 1)).
Proof.
  intros Hr [Hs He] Hrc. cbv zeta.
  assert (E : (0 <? remain) = true) by (apply Z.ltb_lt; lia).
  assert (Es : (wr_status res =? 0) = false) by (apply Z.eqb_neq; assumption).
  assert (Ee : (wr_errno_after_log res =? EINTR) = false)
    by (apply Z.eqb_neq; assumption).
  assert (Ec : (rc <? Guts.max_retry) = true) by (apply Z.ltb_lt; assumption).
  cbn [Guts.send_loop]. rewrite E, Es, Ee, Ec. cbn [negb].
  unfold first_wait, write_log, after_refused.
  destruct g as [fd tx br due sent aw fw]; cbn.
  rewrite <- app_assoc. reflexivity.
Qed.

(** A turn whose write is refused when no retry is left. *)
Lemma send_loop_exhausted (res : WriteResult) (script : list WriteResult)
      (g : Guts.t) (data remain rc : Z) :
  0 < remain ->
  is_refusal res ->
  Guts.max_retry <= rc ->
  let burst := Z.min remain ITE_MAX_SEND_BYTES in
  let g' := after_refused g in
  Guts.send_loop (res :: script) g data remain rc
  = Some (false, g',
          first_wait g rc ++
          [Write (Guts.fd g) data burst res; write_log res rc g';
           ReportError "error sending data: %s"
             [AStr (Guts.HiDesErrorMessage (wr_status res) (wr_errno res))]]).
Proof.
  intros Hr [Hs He] Hrc. cbv zeta.
  assert (E : (0 <? remain) = true) by (apply Z.ltb_lt; lia).
  assert (Es : (wr_status res =? 0) = false) by (apply Z.eqb_neq; assumption).
  assert (Ee : (wr_errno_after_log res =? EINTR) = false)
    by (apply Z.eqb_neq; assumption).
  assert (Ec : (rc <? Guts.max_retry) = false) by (apply Z.ltb_ge; assumption).
  cbn [Guts.send_loop]. rewrite E, Es, Ee, Ec. cbn [negb].
  unfold first_wait, write_log, after_refused.
  destruct g as [fd tx br due sent aw fw]; cbn.
  rewrite <- app_assoc. reflexivity.
Qed.

(** A turn whose write is interrupted by a signal. *)
Lemma send_loop_interrupted (res : WriteResult) (script : list WriteResult)
      (g : Guts.t) (data remain rc : Z) :
  0 < remain ->
  wr_status res <> 0 ->
  wr_errno_after_log res = EINTR ->
  let burst := Z.min remain ITE_MAX_SEND_BYTES in
  let g' := after_refused g in
  Guts.send_loop (res :: script) g data remain rc
  = Guts.emit
      (first_wait g rc ++
       [Write (Guts.fd g) data burst res; write_log res rc g';
        ReportDebug "HiDesDevice::send: interrupted by signal, retrying"])
      (Guts.send_loop script g' data remain rc).
Proof.
  intros Hr Hs He. cbv zeta.
  assert (E : (0 <? remain) = true) by (apply Z.ltb_lt; lia).
  assert (Es : (wr_status res =? 0) = false) by (apply Z.eqb_neq; assumption).
  assert (Ee : (wr_errno_after_log res =? EINTR) = true)
    by (apply Z.eqb_eq; assumption).
  cbn [Guts.send_loop]. rewrite E, Es, Ee. cbn [negb].
  unfold first_wait, write_log, after_refused.
  destruct g as [fd tx br due sent aw fw]; cbn.
  rewrite <- app_assoc. reflexivity.
Qed.

Lemma emit_Some (evs : list Event) (o : Guts.outcome) (ok : bool) (g : Guts.t)
      (tr : list Event) :
  Guts.emit evs o = Some (ok, g, tr) ->
  exists tr', o = Some (ok, g, tr') /\ tr = evs ++ tr'.
Proof.
  destruct o as [[[ok' g'] tr'] |]; simpl; [| discriminate].
  intros H. inversion H; subst. now exists tr'.
Qed.

Lemma accepted_writes_of_app (a b : list Event) :
  accepted_writes_of (a ++ b) = accepted_writes_of a ++ accepted_writes_of b.
Proof. apply flat_map_app. Qed.

Lemma accepted_writes_of_first_wait (g : Guts.t) (rc : Z) :
  accepted_writes_of (first_wait g rc) = [].
Proof. unfold first_wait. destruct (_ && _); reflexivity. Qed.

Lemma accepted_writes_of_resync (g : Guts.t) (now : Z) :
  accepted_writes_of (snd (Guts.resync g now)) = [].
Proof.
  unfold Guts.resync.
  destruct (Guts.bitrate g =? 0); simpl; [reflexivity |].
  destruct (Guts.pkt_sent g =? 0); simpl; [reflexivity |].
  destruct (Guts.due_time g <? now); reflexivity.
Qed.

(** Whatever the driver answers, when the loop ends with success the
    writes it accepted are the chunks of what remained, in order. *)
Lemma send_loop_accepted_writes (script : list WriteResult) :
  forall (g : Guts.t) (data remain rc : Z) (g' : Guts.t) (tr : list Event),
    0 <= remain ->
    Guts.send_loop script g data remain rc = Some (true, g', tr) ->
    accepted_writes_of tr
    = chunks_spec (Z.to_nat (remain / ITE_MAX_SEND_BYTES)) data
        (remain mod ITE_MAX_SEND_BYTES).
Proof.
  assert (HM : ITE_MAX_SEND_BYTES = 32336) by reflexivity.
  assert (Hzero : forall data, [] = chunks_spec (Z.to_nat (0 / ITE_MAX_SEND_BYTES)) data
                                      (0 mod ITE_MAX_SEND_BYTES)) by reflexivity.
  induction script as [| res script IH]; intros g data remain rc g' tr Hr Hrun.
  - cbn [Guts.send_loop] in Hrun.
    destruct (0 <? remain) eqn:E; [discriminate |].
    apply Z.ltb_ge in E. inversion Hrun; subst.
    assert (remain = 0) by lia. subst remain. apply Hzero.
  - destruct (Z.eq_dec remain 0) as [-> | Hne].
    { rewrite send_loop_done in Hrun. inversion Hrun; subst. apply Hzero. }
    assert (Hpos : 0 < remain) by lia.
    destruct (Z.eq_dec (wr_status res) 0) as [Hs | Hs].
    + rewrite send_loop_accepted in Hrun by assumption.
      apply emit_Some in Hrun. destruct Hrun as (tr' & Hrun & ->).
      apply IH in Hrun; [| lia].
      rewrite !accepted_writes_of_app, accepted_writes_of_first_wait, Hrun.
      unfold write_log.
      cbn [accepted_writes_of flat_map app]. rewrite Hs. cbn [Z.eqb app].
      destruct (Z_lt_le_dec remain ITE_MAX_SEND_BYTES) as [Hlt | Hge].
      * rewrite Z.min_l by lia. rewrite Z.sub_diag.
        rewrite (Z.div_small remain), (Z.mod_small remain) by lia.
        rewrite <- Hzero.
        cbn [Z.to_nat chunks_spec].
        assert (E : (0 <? remain) = true) by (apply Z.ltb_lt; lia).
        rewrite E. reflexivity.
      * rewrite Z.min_r by lia.
        replace remain with ((remain - ITE_MAX_SEND_BYTES) + 1 * ITE_MAX_SEND_BYTES) at 3 4
          by lia.
        rewrite Z.div_add, Z.mod_add by lia.
        replace (Z.to_nat ((remain - ITE_MAX_SEND_BYTES) / ITE_MAX_SEND_BYTES + 1))
          with (S (Z.to_nat ((remain - ITE_MAX_SEND_BYTES) / ITE_MAX_SEND_BYTES))).
        -- reflexivity.
        -- assert (0 <= (remain - ITE_MAX_SEND_BYTES) / ITE_MAX_SEND_BYTES)
             by (apply Z.div_pos; lia).
           lia.
    + assert (Es : (wr_status res =? 0) = false) by (apply Z.eqb_neq; assumption).
      destruct (Z.eq_dec (wr_errno_after_log res) EINTR) as [He | He].
      * rewrite send_loop_interrupted in Hrun by assumption.
        apply emit_Some in Hrun. destruct Hrun as (tr' & Hrun & ->).
        apply IH in Hrun; [| lia].
        rewrite !accepted_writes_of_app, accepted_writes_of_first_wait, Hrun.
        unfold write_log.
        cbn [accepted_writes_of flat_map app]. rewrite Es. reflexivity.
      * destruct (Z_lt_le_dec rc Guts.max_retry) as [Hrc | Hrc].
        -- rewrite send_loop_refused in Hrun by (assumption || now split).
           apply emit_Some in Hrun. destruct Hrun as (tr' & Hrun & ->).
           apply IH in Hrun; [| lia].
           rewrite !accepted_writes_of_app, accepted_writes_of_first_wait, Hrun.
           unfold write_log.
           cbn [accepted_writes_of flat_map app]. rewrite Es. reflexivity.
        -- rewrite send_loop_exhausted in Hrun by (assumption || now split).
           discriminate.
Qed.

Lemma writes_of_first_wait (g : Guts.t) (rc : Z) : writes_of (first_wait g rc) = [].
Proof. unfold first_wait. destruct (_ && _); reflexivity. Qed.

Lemma usleeps_of_first_wait (g : Guts.t) (rc : Z) : usleeps_of (first_wait g rc) = [].
Proof. unfold first_wait. destruct (_ && _); reflexivity. Qed.

Lemma max_send_bytes : ITE_MAX_SEND_BYTES = 32336.
Proof. reflexivity. Qed.

(** As long as whole chunks remain and the driver accepts them, the
    loop writes them one after the other, without any retry delay. *)
Lemma send_loop_full_chunks (pre rest : list WriteResult) :
  forall (g : Guts.t) (data remain : Z),
    Forall (fun res => wr_status res = 0) pre ->
    Z.of_nat (List.length pre) * ITE_MAX_SEND_BYTES <= remain ->
    exists evs,
      Guts.send_loop (pre ++ rest) g data remain 0
      = Guts.emit evs
          (Guts.send_loop rest (after_chunks (List.length pre) g)
             (data + Z.of_nat (List.length pre) * ITE_MAX_SEND_BYTES)
             (remain - Z.of_nat (List.length pre) * ITE_MAX_SEND_BYTES) 0) /\
      writes_of evs = chunks_spec (List.length pre) data 0 /\
      usleeps_of evs = [].
Proof.
  pose proof max_send_bytes as HM.
  induction pre as [| res pre IH]; intros g data remain Hok Hlen.
  - exists []. rewrite emit_nil. cbn [List.length app after_chunks chunks_spec].
    replace (data + Z.of_nat 0 * ITE_MAX_SEND_BYTES) with data by lia.
    replace (remain - Z.of_nat 0 * ITE_MAX_SEND_BYTES) with remain by lia.
    repeat split.
  - inversion Hok as [| r l Hres Hpre]; subst.
    cbn [List.length] in Hlen |- *. rewrite Nat2Z.inj_succ in Hlen.
    assert (Hmin : Z.min remain ITE_MAX_SEND_BYTES = ITE_MAX_SEND_BYTES)
      by (apply Z.min_r; lia).
    cbn [app]. rewrite send_loop_accepted by (assumption || lia).
    rewrite Hmin.
    destruct (IH (after_accepted g ITE_MAX_SEND_BYTES)
                 (data + ITE_MAX_SEND_BYTES) (remain - ITE_MAX_SEND_BYTES) Hpre)
      as (evs & Hrun & Hw & Hu); [lia |].
    rewrite Hrun, emit_emit. eexists. split; [| split].
    + cbn [after_chunks]. rewrite Nat2Z.inj_succ. f_equal. f_equal; lia.
    + rewrite !writes_of_app, writes_of_first_wait, Hw. reflexivity.
    + rewrite !usleeps_of_app, usleeps_of_first_wait, Hu. reflexivity.
Qed.

(** The chunks of the specification, measured in packets. *)
Lemma chunks_spec_sizes (full : nat) :
  forall (data r : Z),
    0 <= r ->
    map (fun w => snd w / PKT_SIZE) (chunks_spec full data (r * PKT_SIZE))
    = repeat ITE_MAX_SEND_PACKETS full ++ (if 0 <? r then [r] else []).
Proof.
  induction full as [| full IH]; intros data r Hr.
  - cbn [chunks_spec repeat app].
    destruct (0 <? r) eqn:E.
    + apply Z.ltb_lt in E.
      assert (E' : (0 <? r * PKT_SIZE) = true) by (apply Z.ltb_lt; unfold PKT_SIZE; lia).
      rewrite E'. cbn [map snd]. now rewrite Z.div_mul by discriminate.
    + apply Z.ltb_ge in E.
      assert (E' : (0 <? r * PKT_SIZE) = false) by (apply Z.ltb_ge; unfold PKT_SIZE; lia).
      rewrite E'. reflexivity.
  - cbn [chunks_spec repeat app map snd]. rewrite IH by assumption. reflexivity.
Qed.

Lemma chunks_spec_last (full : nat) :
  forall (data rest : Z),
    chunks_spec full data rest
    = chunks_spec full data 0 ++
      (if 0 <? rest
       then [(data + Z.of_nat full * ITE_MAX_SEND_BYTES, rest)] else []).
Proof.
  induction full as [| full IH]; intros data rest.
  - cbn [chunks_spec app]. replace (data + Z.of_nat 0 * ITE_MAX_SEND_BYTES) with data by lia.
    reflexivity.
  - cbn [chunks_spec]. rewrite IH. rewrite Nat2Z.inj_succ. cbn [app].
    replace (data + ITE_MAX_SEND_BYTES + Z.of_nat full * ITE_MAX_SEND_BYTES)
      with (data + Z.succ (Z.of_nat full) * ITE_MAX_SEND_BYTES) by lia.
    reflexivity.
Qed.

End SendLoop.

(** ** Chunk splitting *)

Section Chunking.
Context {P : Platform}.

Lemma wrap64_small (z : Z) : 0 <= z < 2 ^ 64 -> wrap64 z = z.
Proof. intros H. unfold wrap64. now apply Z.mod_small. Qed.

(** When the driver accepts every write, [send] succeeds and its
    [write(2)] calls are exactly the chunks, without any retry delay. *)
Lemma send_all_accepted (g : Guts.t) (now n : Z) (script : list WriteResult) :
  Guts.transmitting g = true ->
  0 <= n ->
  n * PKT_SIZE < 2 ^ 64 ->
  Forall (fun res => wr_status res = 0) script ->
  n <= Z.of_nat (List.length script) * ITE_MAX_SEND_PACKETS ->
  exists g' tr,
    Guts.send g now n script = Some (true, g', tr) /\
    writes_of tr
    = chunks_spec (Z.to_nat (n / ITE_MAX_SEND_PACKETS)) 0
        (n mod ITE_MAX_SEND_PACKETS * PKT_SIZE) /\
    map (fun w => snd w / PKT_SIZE) (writes_of tr) = chunk_sizes_spec n /\
    usleeps_of tr = [].
Proof.
  intros Ht Hn Hsize Hok Hlen.
  pose proof max_send_bytes as HM.
  assert (HP : ITE_MAX_SEND_PACKETS = 172) by reflexivity.
  assert (HK : PKT_SIZE = 188) by reflexivity.
  pose proof (Z.div_mod n 172 ltac:(discriminate)) as Hdm.
  pose proof (Z.mod_pos_bound n 172 ltac:(reflexivity)) as Hr.
  pose proof (Z.div_pos n 172 Hn ltac:(reflexivity)) as Hq.
  rewrite HP in *. rewrite HK in Hsize.
  set (q := n / 172) in *. set (r := n mod 172) in *.
  assert (Hfl : List.length (firstn (Z.to_nat q) script) = Z.to_nat q)
    by (apply firstn_length_le; lia).
  assert (Hsl : List.length (skipn (Z.to_nat q) script)
                = (List.length script - Z.to_nat q)%nat) by apply length_skipn.
  assert (Hboth : Forall (fun res => wr_status res = 0)
                    (firstn (Z.to_nat q) script ++ skipn (Z.to_nat q) script))
    by (rewrite firstn_skipn; exact Hok).
  apply Forall_app in Hboth. destruct Hboth as [Hokf Hoks].
  rewrite (send_unfold g now n script Ht).
  rewrite wrap64_small by (rewrite HK; lia).
  replace (Guts.send_loop script) with
    (Guts.send_loop (firstn (Z.to_nat q) script ++ skipn (Z.to_nat q) script))
    by (now rewrite firstn_skipn).
  destruct (send_loop_full_chunks (firstn (Z.to_nat q) script)
              (skipn (Z.to_nat q) script) (fst (Guts.resync g now)) 0 (n * PKT_SIZE) Hokf)
    as (evs & Hrun & Hw & Hu).
  { rewrite Hfl, HM, HK. lia. }
  rewrite Hrun, emit_emit. rewrite Hfl in *.
  replace (n * PKT_SIZE - Z.of_nat (Z.to_nat q) * ITE_MAX_SEND_BYTES)
    with (r * PKT_SIZE) by (rewrite HM, HK; lia).
  rewrite chunks_spec_last.
  assert (Hsizes :
            map (fun w => snd w / PKT_SIZE)
              (chunks_spec (Z.to_nat q) 0 0 ++
               (if 0 <? r * PKT_SIZE
                then [(0 + Z.of_nat (Z.to_nat q) * ITE_MAX_SEND_BYTES, r * PKT_SIZE)]
                else []))
            = chunk_sizes_spec n).
  { rewrite <- chunks_spec_last. rewrite chunks_spec_sizes by lia.
    unfold chunk_sizes_spec. rewrite HP. reflexivity. }
  destruct (0 <? r * PKT_SIZE) eqn:E.
  - apply Z.ltb_lt in E. rewrite HK in E.
    destruct (skipn (Z.to_nat q) script) as [| res rest] eqn:Esk.
    + cbn [List.length] in Hsl. exfalso. lia.
    + inversion Hoks as [| x l Hres Hrest]; subst x l.
      rewrite send_loop_accepted by (assumption || (rewrite HK; lia)).
      assert (Hmin : Z.min (r * PKT_SIZE) ITE_MAX_SEND_BYTES = r * PKT_SIZE)
        by (apply Z.min_l; rewrite HM, HK; lia).
      rewrite Hmin, Z.sub_diag, send_loop_done. cbn [Guts.emit].
      do 2 eexists. split; [reflexivity |].
      rewrite app_nil_r.
      rewrite !writes_of_app, writes_of_resync, writes_of_first_wait, Hw.
      rewrite !usleeps_of_app, usleeps_of_first_wait, Hu.
      cbn [writes_of usleeps_of flat_map app] in *.
      split; [reflexivity | split; [exact Hsizes |]].
      unfold Guts.resync.
      destruct (negb _); [destruct (_ =? _); [| destruct (_ <? _)] |]; reflexivity.
  - apply Z.ltb_ge in E. rewrite HK in E.
    assert (Hr0 : r = 0) by lia.
    rewrite Hr0. change (0 * PKT_SIZE) with 0.
    rewrite send_loop_done. cbn [Guts.emit].
    do 2 eexists. split; [reflexivity |].
    rewrite app_nil_r in *.
    rewrite !writes_of_app, writes_of_resync, Hw.
    rewrite !usleeps_of_app, Hu.
    cbn [writes_of usleeps_of flat_map app] in *. rewrite app_nil_r.
    split; [reflexivity | split; [exact Hsizes |]].
    unfold Guts.resync.
    destruct (negb _); [destruct (_ =? _); [| destruct (_ <? _)] |]; reflexivity.
Qed.

(** C5.  [send] of [n] packets splits the request into chunks taken
    one after the other from the start of the buffer: [n / 172]
    chunks of 172 packets, then one of [n mod 172] packets unless
    that is zero.  These are the writes the driver has accepted
    whenever [send] succeeds, and when the driver accepts every
    write they are all the writes [send] makes. *)
Theorem send_splits_into_chunks (g : Guts.t) (now n : Z) :
  Guts.transmitting g = true ->
  0 <= n ->
  n * PKT_SIZE < 2 ^ 64 ->
  let chunks :=
    chunks_spec (Z.to_nat (n / ITE_MAX_SEND_PACKETS)) 0
      (n mod ITE_MAX_SEND_PACKETS * PKT_SIZE) in
  map (fun w => snd w / PKT_SIZE) chunks = chunk_sizes_spec n /\
  (forall script g' tr,
     Guts.send g now n script = Some (true, g', tr) ->
     accepted_writes_of tr = chunks) /\
  (forall script,
     Forall (fun res => wr_status res = 0) script ->
     n <= Z.of_nat (List.length script) * ITE_MAX_SEND_PACKETS ->
     exists g' tr,
       Guts.send g now n script = Some (true, g', tr) /\
       writes_of tr = chunks /\
       usleeps_of tr = []).
Proof.
  intros Ht Hn Hsize. cbv zeta.
  pose proof (Z.mod_pos_bound n ITE_MAX_SEND_PACKETS ltac:(reflexivity)) as Hr.
  split; [| split].
  - rewrite chunks_spec_sizes by lia. reflexivity.
  - intros script g' tr Hrun.
    rewrite (send_unfold g now n script Ht) in Hrun.
    apply emit_Some in Hrun. destruct Hrun as (tr' & Hrun & ->).
    rewrite wrap64_small in Hrun by (unfold PKT_SIZE in *; lia).
    apply send_loop_accepted_writes in Hrun; [| unfold PKT_SIZE; lia].
    rewrite !accepted_writes_of_app, accepted_writes_of_resync, Hrun.
    cbn [accepted_writes_of flat_map app].
    unfold ITE_MAX_SEND_BYTES. change 188 with PKT_SIZE.
    rewrite Z.div_mul_cancel_r, Z.mul_mod_distr_r by discriminate.
    reflexivity.
  - intros script Hok Hlen.
    destruct (send_all_accepted g now n script Ht Hn Hsize Hok Hlen)
      as (g' & tr & Hs & Hw & _ & Hu).
    exists g', tr. auto.
Qed.

End Chunking.

(** A request of 1000 packets is written as five chunks of 172 packets
    and one of 140, in that order. *)
Lemma send_splits_into_chunks_witness :
  Guts.transmitting paced_guts = true /\
  0 <= 1000 /\
  1000 * PKT_SIZE < 2 ^ 64 /\
  Forall (fun res => wr_status res = 0) (repeat write_ok 6) /\
  1000 <= Z.of_nat (List.length (repeat write_ok 6)) * ITE_MAX_SEND_PACKETS /\
  exists g' tr,
    Guts.send (P := accepting_platform) paced_guts 5 1000 (repeat write_ok 6)
    = Some (true, g', tr) /\
    map (fun w => snd w / PKT_SIZE) (writes_of tr) = [172; 172; 172; 172; 172; 140] /\
    map fst (writes_of tr) = [0; 32336; 64672; 97008; 129344; 161680].
Proof.
  assert (Hok : Forall (fun res => wr_status res = 0) (repeat write_ok 6))
    by (repeat constructor).
  split; [reflexivity | split; [discriminate | split; [reflexivity | split; [exact Hok |]]]].
  split; [discriminate |].
  destruct (send_splits_into_chunks (P := accepting_platform) paced_guts 5 1000
              eq_refl ltac:(discriminate) eq_refl)
    as (Hsz & _ & Hall).
  destruct (Hall (repeat write_ok 6) Hok ltac:(discriminate)) as (g' & tr & Hs & Hw & _).
  exists g', tr. split; [exact Hs | split].
  - rewrite Hw. exact Hsz.
  - rewrite Hw. reflexivity.
Defined.

(** ** The retry bound *)

Section RetryBound.
Context {P : Platform}.



End RetryBound.

(** ** Parameter validation in [tune] *)

Section Tune.
Context {P : Platform}.

Lemma switch_modulation_None (m : Modulation) :
  ~ In m [QPSK; QAM_16; QAM_64] -> HiDesDevice.switch_modulation m = None.
Proof. destruct m; simpl; intros H; try reflexivity; exfalso; apply H; tauto. Qed.

Lemma switch_fec_hp_None (f : InnerFEC) :
  ~ In f [FEC_1_2; FEC_2_3; FEC_3_4; FEC_5_6; FEC_7_8] ->
  HiDesDevice.switch_fec_hp f = None.
Proof. destruct f; simpl; intros H; try reflexivity; exfalso; apply H; tauto. Qed.

Lemma switch_guard_interval_None (gi : GuardInterval) :
  ~ In gi [GUARD_1_32; GUARD_1_16; GUARD_1_8; GUARD_1_4] ->
  HiDesDevice.switch_guard_interval gi = None.
Proof. destruct gi; simpl; intros H; try reflexivity; exfalso; apply H; tauto. Qed.

Lemma switch_transmission_mode_None (tm : TransmissionMode) :
  ~ In tm [TM_2K; TM_4K; TM_8K] -> HiDesDevice.switch_transmission_mode tm = None.
Proof. destruct tm; simpl; intros H; try reflexivity; exfalso; apply H; tauto. Qed.

Lemma switch_inversion_None (i : SpectralInversion) :
  ~ In i [SPINV_OFF; SPINV_ON; SPINV_AUTO] -> HiDesDevice.switch_inversion i = None.
Proof. destruct i; simpl; intros H; try reflexivity; exfalso; apply H; tauto. Qed.

(** C8.  On an open session, [tune] with a bandwidth whose value in
    kHz is zero, or with a modulation, code rate, guard interval,
    transmission mode or spectral inversion outside the values it
    accepts, returns failure after reporting the parameter as
    unsupported: it issues no control command and leaves the session,
    and so the stored bit rate, as it was. *)
Theorem tune_rejects_before_any_command (d : HiDesDevice.t)
        (params : TunerParametersDVBT) :
  HiDesDevice._is_open d = true ->
  bandwidth_field (BandWidthValueHz (bandwidth params) / 1000) = 0 \/
  ~ In (modulation params) [QPSK; QAM_16; QAM_64] \/
  ~ In (fec_hp params) [FEC_1_2; FEC_2_3; FEC_3_4; FEC_5_6; FEC_7_8] \/
  ~ In (guard_interval params) [GUARD_1_32; GUARD_1_16; GUARD_1_8; GUARD_1_4] \/
  ~ In (transmission_mode params) [TM_2K; TM_4K; TM_8K] \/
  ~ In (inversion params) [SPINV_OFF; SPINV_ON; SPINV_AUTO] ->
  exists msg,
    In msg unsupported_messages /\
    HiDesDevice.tune d params = (false, d, [ReportError msg []]) /\
    ioctls_of (snd (HiDesDevice.tune d params)) = [] /\
    Guts.bitrate (HiDesDevice._guts (snd (fst (HiDesDevice.tune d params))))
    = Guts.bitrate (HiDesDevice._guts d).
Proof.
  intros Hopen Hbad.
  assert (Hsuff : exists msg, In msg unsupported_messages /\
                              HiDesDevice.tune d params = (false, d, [ReportError msg []])).
  { unfold HiDesDevice.tune. rewrite Hopen. cbn [negb].
    destruct (bandwidth_field (BandWidthValueHz (bandwidth params) / 1000) =? 0) eqn:Ebw.
    { eexists; split; [| reflexivity]. simpl; tauto. }
    destruct Hbad as [Hbw | Hbad]; [apply Z.eqb_neq in Ebw; contradiction |].
    destruct (HiDesDevice.switch_modulation (modulation params)) as [c |] eqn:Em;
      [| eexists; split; [| reflexivity]; simpl; tauto].
    destruct Hbad as [Hm | Hbad];
      [apply switch_modulation_None in Hm; congruence |].
    destruct (HiDesDevice.switch_fec_hp (fec_hp params)) as [r |] eqn:Ef;
      [| eexists; split; [| reflexivity]; simpl; tauto].
    destruct Hbad as [Hf | Hbad];
      [apply switch_fec_hp_None in Hf; congruence |].
    destruct (HiDesDevice.switch_guard_interval (guard_interval params)) as [gi |] eqn:Eg;
      [| eexists; split; [| reflexivity]; simpl; tauto].
    destruct Hbad as [Hg | Hbad];
      [apply switch_guard_interval_None in Hg; congruence |].
    destruct (HiDesDevice.switch_transmission_mode (transmission_mode params))
      as [tm |] eqn:Et;
      [| eexists; split; [| reflexivity]; simpl; tauto].
    destruct Hbad as [Htm | Hi];
      [apply switch_transmission_mode_None in Htm; congruence |].
    apply switch_inversion_None in Hi. rewrite Hi.
    eexists; split; [| reflexivity]. simpl; tauto. }
  destruct Hsuff as (msg & Hin & Htune).
  exists msg. rewrite Htune. repeat split; assumption.
Qed.

End Tune.

(** A modulation that is not one of the three constellations, with an
    8 MHz bandwidth. *)
Lemma tune_rejects_before_any_command_witness :
  HiDesDevice._is_open (HiDesDevice.mk true idle_guts) = true /\
  ~ In (Modulation_other 6) [QPSK; QAM_16; QAM_64] /\
  exists msg,
    In msg unsupported_messages /\
    HiDesDevice.tune (P := accepting_platform) (HiDesDevice.mk true idle_guts)
      (mkTunerParametersDVBT 474000000 8000000 (Modulation_other 6)
         FEC_2_3 GUARD_1_32 TM_8K SPINV_AUTO)
    = (false, HiDesDevice.mk true idle_guts, [ReportError msg []]).
Proof.
  assert (Hm : ~ In (Modulation_other 6) [QPSK; QAM_16; QAM_64])
    by (simpl; intros [H | [H | [H | []]]]; discriminate).
  split; [reflexivity | split; [exact Hm |]].
  destruct (tune_rejects_before_any_command (P := accepting_platform)
              (HiDesDevice.mk true idle_guts)
              (mkTunerParametersDVBT 474000000 8000000 (Modulation_other 6)
                 FEC_2_3 GUARD_1_32 TM_8K SPINV_AUTO)
              eq_refl (or_intror (or_introl Hm)))
    as (msg & Hin & Ht & _).
  exists msg. split; [exact Hin | exact Ht].
Defined.

(** ** Units of the sent counter and of the due-time *)

Section Units.
Context {P : Platform}.

(** For a chunk within the maximal size the product does not wrap:
    the due-time moves by [burst * 8 * PKT_SIZE * 1e9 / bitrate],
    where [burst] is already a number of bytes. *)
Lemma due_time_advance_value (burst bitrate : Z) :
  0 <= burst <= ITE_MAX_SEND_BYTES ->
  Guts.due_time_advance burst bitrate
  = burst * 8 * PKT_SIZE * NanoSecPerSec / bitrate.
Proof.
  intros Hb. unfold Guts.due_time_advance.
  rewrite wrap64_small; [reflexivity |].
  assert (HM : ITE_MAX_SEND_BYTES = 32336) by reflexivity.
  unfold PKT_SIZE, NanoSecPerSec. split; [lia |].
  apply Z.le_lt_trans with (32336 * 8 * 188 * 1000000000); [lia | reflexivity].
Qed.

(** An accepted chunk of [k] packets adds [k * PKT_SIZE], its size
    in bytes, to the sent-packet counter. *)
Lemma send_loop_accepted_pkt_sent (res : WriteResult) (rest : list WriteResult)
      (g : Guts.t) (data k rc : Z) :
  0 < k <= ITE_MAX_SEND_PACKETS ->
  wr_status res = 0 ->
  exists g' tr,
    Guts.send_loop (res :: rest) g data (k * PKT_SIZE) rc = Some (true, g', tr) /\
    Guts.pkt_sent g' = wrap64 (Guts.pkt_sent g + k * PKT_SIZE) /\
    Guts.due_time g'
    = if Guts.bitrate g =? 0 then Guts.due_time g
      else Guts.due_time g
           + k * PKT_SIZE * 8 * PKT_SIZE * NanoSecPerSec / Guts.bitrate g.
Proof.
  intros Hk Hs.
  assert (HM : ITE_MAX_SEND_BYTES = 32336) by reflexivity.
  assert (HP : ITE_MAX_SEND_PACKETS = 172) by reflexivity.
  assert (HK : PKT_SIZE = 188) by reflexivity.
  rewrite send_loop_accepted by (assumption || lia).
  rewrite Z.min_l by lia. rewrite Z.sub_diag, send_loop_done. cbn [Guts.emit].
  do 2 eexists. split; [reflexivity |].
  unfold after_accepted. cbn [Guts.pkt_sent Guts.due_time].
  split; [reflexivity |].
  destruct (Guts.bitrate g =? 0); [reflexivity |].
  rewrite due_time_advance_value by lia. reflexivity.
Qed.

End Units.

(** C1, on the code.  At 1504000 b/s one packet of 188 bytes lasts one
    millisecond and 1000 packets one second.  After an accepted [send]
    of one packet the due-time is 188 milliseconds after the baseline,
    and after an accepted [send] of 1000 packets it is 188 seconds
    after it: the size of a packet is counted twice. *)
Theorem send_due_time_counts_packet_size_twice :
  (exists g' tr,
     Guts.send (P := accepting_platform) paced_guts 5 1 [write_ok]
     = Some (true, g', tr) /\
     Guts.due_time g' - 5 = 188000000 /\
     1 * PKT_SIZE * 8 * NanoSecPerSec / Guts.bitrate paced_guts = 1000000) /\
  (exists g' tr,
     Guts.send (P := accepting_platform) paced_guts 5 1000 (repeat write_ok 6)
     = Some (true, g', tr) /\
     Guts.due_time g' - 5 = 188000000000 /\
     1000 * PKT_SIZE * 8 * NanoSecPerSec / Guts.bitrate paced_guts = 1000000000).
Proof.
  split; do 2 eexists; (split; [vm_compute; reflexivity | split; reflexivity]).
Qed.

(** C2, on the code.  Starting from a zero counter, an accepted [send]
    of one packet moves the cursor by the 188 bytes of the packet and
    leaves the sent-packet counter at 188; an accepted [send] of 1000
    packets leaves it at 188000. *)
Theorem send_counts_bytes_as_packets :
  (exists g' tr,
     Guts.send (P := accepting_platform) unpaced_guts 0 1 [write_ok]
     = Some (true, g', tr) /\
     writes_of tr = [(0, 188)] /\
     Guts.pkt_sent g' = 188) /\
  (exists g' tr,
     Guts.send (P := accepting_platform) unpaced_guts 0 1000 (repeat write_ok 6)
     = Some (true, g', tr) /\
     Guts.pkt_sent g' = 188000).
Proof.
  split; do 2 eexists; (split; [vm_compute; reflexivity | repeat split]).
Qed.

(** ** What every run of [send] keeps *)

Section SendInvariants.
Context {P : Platform}.

Lemma wrap64_range (z : Z) : uint64 (wrap64 z).
Proof. unfold uint64, wrap64. apply Z.mod_pos_bound. reflexivity. Qed.

Lemma wrap64_add_l (a b : Z) : wrap64 (wrap64 a + b) = wrap64 (a + b).
Proof. unfold wrap64. apply Zplus_mod_idemp_l. Qed.

Lemma failed_writes_of_app (a b : list Event) :
  failed_writes_of (a ++ b) = failed_writes_of a ++ failed_writes_of b.
Proof. apply flat_map_app. Qed.

Lemma waits_of_app (a b : list Event) : waits_of (a ++ b) = waits_of a ++ waits_of b.
Proof. apply flat_map_app. Qed.

Lemma failed_writes_of_first_wait (g : Guts.t) (rc : Z) :
  failed_writes_of (first_wait g rc) = [].
Proof. unfold first_wait. destruct (_ && _); reflexivity. Qed.

Lemma resync_events (g : Guts.t) (now : Z) :
  writes_of (snd (Guts.resync g now)) = [] /\
  failed_writes_of (snd (Guts.resync g now)) = [] /\
  usleeps_of (snd (Guts.resync g now)) = [] /\
  waits_of (snd (Guts.resync g now)) = [].
Proof.
  unfold Guts.resync.
  destruct (Guts.bitrate g =? 0); simpl; [repeat split |].
  destruct (Guts.pkt_sent g =? 0); simpl; [repeat split |].
  destruct (Guts.due_time g <? now); repeat split.
Qed.

(** The four ways a turn of the loop can go, for a proof by cases. *)
Lemma send_loop_turn (res : WriteResult) (script : list WriteResult)
      (g : Guts.t) (data remain rc : Z) :
  0 < remain ->
  let burst := Z.min remain ITE_MAX_SEND_BYTES in
  (wr_status res = 0 /\
   Guts.send_loop (res :: script) g data remain rc
   = Guts.emit
       (first_wait g rc ++
        [Write (Guts.fd g) data burst res; write_log res rc (after_accepted g burst)])
       (Guts.send_loop script (after_accepted g burst) (data + burst) (remain - burst) 0)) \/
  (is_interrupt res /\
   Guts.send_loop (res :: script) g data remain rc
   = Guts.emit
       (first_wait g rc ++
        [Write (Guts.fd g) data burst res; write_log res rc (after_refused g);
         ReportDebug "HiDesDevice::send: interrupted by signal, retrying"])
       (Guts.send_loop script (after_refused g) data remain rc)) \/
  (is_refusal res /\ rc < Guts.max_retry /\
   Guts.send_loop (res :: script) g data remain rc
   = Guts.emit
       (first_wait g rc ++
        [Write (Guts.fd g) data burst res; write_log res rc (after_refused g);
         Usleep Guts.error_delay])
       (Guts.send_loop script (after_refused g) data remain (rc + 1))) \/
  (is_refusal res /\ Guts.max_retry <= rc /\
   Guts.send_loop (res :: script) g data remain rc
   = Some (false, after_refused g,
           first_wait g rc ++
           [Write (Guts.fd g) data burst res; write_log res rc (after_refused g);
            ReportError "error sending data: %s"
              [AStr (Guts.HiDesErrorMessage (wr_status res) (wr_errno res))]])).
Proof.
  intros Hpos. cbv zeta.
  destruct (Z.eq_dec (wr_status res) 0) as [Hs | Hs].
  { left. split; [assumption |]. now apply send_loop_accepted. }
  destruct (Z.eq_dec (wr_errno_after_log res) EINTR) as [He | He].
  { right; left. split; [now split |]. now apply send_loop_interrupted. }
  destruct (Z_lt_le_dec rc Guts.max_retry) as [Hrc | Hrc].
  - right; right; left. split; [now split |]. split; [assumption |].
    apply send_loop_refused; [assumption | now split | assumption].
  - right; right; right. split; [now split |]. split; [assumption |].
    apply send_loop_exhausted; [assumption | now split | assumption].
Qed.

(** The loop with nothing left to send, or no positive amount. *)
Lemma send_loop_nothing (script : list WriteResult) (g : Guts.t) (data remain rc : Z) :
  remain <= 0 -> Guts.send_loop script g data remain rc = Some (true, g, []).
Proof.
  intros H. assert (E : (0 <? remain) = false) by (apply Z.ltb_ge; lia).
  destruct script; cbn [Guts.send_loop]; rewrite E; reflexivity.
Qed.

(** The loop never touches the descriptor, the flag or the bit rate. *)
Lemma send_loop_frame (script : list WriteResult) :
  forall (g : Guts.t) (data remain rc : Z) (ok : bool) (g' : Guts.t) (tr : list Event),
    Guts.send_loop script g data remain rc = Some (ok, g', tr) ->
    Guts.fd g' = Guts.fd g /\
    Guts.transmitting g' = Guts.transmitting g /\
    Guts.bitrate g' = Guts.bitrate g.
Proof.
  induction script as [| res script IH]; intros g data remain rc ok g' tr Hrun.
  - cbn [Guts.send_loop] in Hrun. destruct (0 <? remain); [discriminate |].
    inversion Hrun; subst. repeat split.
  - destruct (Z_lt_le_dec 0 remain) as [Hpos | Hle].
    + destruct (send_loop_turn res script g data remain rc Hpos)
        as [(_ & E) | [(_ & E) | [(_ & _ & E) | (_ & _ & E)]]];
        rewrite E in Hrun.
      * apply emit_Some in Hrun. destruct Hrun as (tr' & Hrun & _).
        apply IH in Hrun. exact Hrun.
      * apply emit_Some in Hrun. destruct Hrun as (tr' & Hrun & _).
        apply IH in Hrun. exact Hrun.
      * apply emit_Some in Hrun. destruct Hrun as (tr' & Hrun & _).
        apply IH in Hrun. exact Hrun.
      * inversion Hrun; subst. repeat split.
    + rewrite send_loop_nothing in Hrun by assumption.
      inversion Hrun; subst. repeat split.
Qed.

(** The loop counts every write, and every write that returned a
    non-zero status. *)
Lemma send_loop_statistics (script : list WriteResult) :
  forall (g : Guts.t) (data remain rc : Z) (ok : bool) (g' : Guts.t) (tr : list Event),
    uint64 (Guts.all_write g) ->
    uint64 (Guts.fail_write g) ->
    Guts.send_loop script g data remain rc = Some (ok, g', tr) ->
    Guts.all_write g'
    = wrap64 (Guts.all_write g + Z.of_nat (List.length (writes_of tr))) /\
    Guts.fail_write g'
    = wrap64 (Guts.fail_write g + Z.of_nat (List.length (failed_writes_of tr))).
Proof.
  assert (Hbase : forall z, uint64 z -> z = wrap64 (z + Z.of_nat 0)).
  { intros z Hz. rewrite Z.add_0_r. symmetry. now apply wrap64_small. }
  induction script as [| res script IH]; intros g data remain rc ok g' tr Ha Hf Hrun.
  - cbn [Guts.send_loop] in Hrun. destruct (0 <? remain); [discriminate |].
    inversion Hrun; subst. split; now apply Hbase.
  - destruct (Z_lt_le_dec 0 remain) as [Hpos | Hle].
    + destruct (send_loop_turn res script g data remain rc Hpos)
        as [(Hs & E) | [([Hs He] & E) | [([Hs He] & _ & E) | ([Hs He] & _ & E)]]];
        rewrite E in Hrun.
      * apply emit_Some in Hrun. destruct Hrun as (tr' & Hrun & ->).
        apply IH in Hrun; [| apply wrap64_range | exact Hf].
        destruct Hrun as [Hall Hfail]. cbn [after_accepted Guts.all_write Guts.fail_write] in *.
        rewrite Hall, Hfail.
        rewrite !writes_of_app, !failed_writes_of_app, writes_of_first_wait,
          failed_writes_of_first_wait.
        unfold write_log. cbn [writes_of failed_writes_of flat_map app List.length].
        rewrite Hs. cbn [Z.eqb app].
        rewrite wrap64_add_l. split; [f_equal; lia | reflexivity].
      * apply emit_Some in Hrun. destruct Hrun as (tr' & Hrun & ->).
        apply IH in Hrun; [| apply wrap64_range | apply wrap64_range].
        destruct Hrun as [Hall Hfail]. cbn [after_refused Guts.all_write Guts.fail_write] in *.
        rewrite Hall, Hfail.
        rewrite !writes_of_app, !failed_writes_of_app, writes_of_first_wait,
          failed_writes_of_first_wait.
        unfold write_log. cbn [writes_of failed_writes_of flat_map app List.length].
        apply Z.eqb_neq in Hs. rewrite Hs. cbn [app List.length].
        rewrite !wrap64_add_l. split; f_equal; lia.
      * apply emit_Some in Hrun. destruct Hrun as (tr' & Hrun & ->).
        apply IH in Hrun; [| apply wrap64_range | apply wrap64_range].
        destruct Hrun as [Hall Hfail]. cbn [after_refused Guts.all_write Guts.fail_write] in *.
        rewrite Hall, Hfail.
        rewrite !writes_of_app, !failed_writes_of_app, writes_of_first_wait,
          failed_writes_of_first_wait.
        unfold write_log. cbn [writes_of failed_writes_of flat_map app List.length].
        apply Z.eqb_neq in Hs. rewrite Hs. cbn [app List.length].
        rewrite !wrap64_add_l. split; f_equal; lia.
      * inversion Hrun; subst.
        cbn [after_refused Guts.all_write Guts.fail_write].
        rewrite !writes_of_app, !failed_writes_of_app, writes_of_first_wait,
          failed_writes_of_first_wait.
        unfold write_log. cbn [writes_of failed_writes_of flat_map app List.length].
        apply Z.eqb_neq in Hs. rewrite Hs. cbn [app List.length].
        split; reflexivity.
    + rewrite send_loop_nothing in Hrun by assumption.
      inversion Hrun; subst. split; now apply Hbase.
Qed.

End SendInvariants.

(** ** The retry bound at any chunk *)

Section RetryAtAnyChunk.
Context {P : Platform}.



(** When the log line leaves [errno] as the write set it, a write
    with a non-zero status and a host error other than [EINTR] is a
    refusal. *)
Lemma refusal_when_log_keeps_errno (res : WriteResult) :
  wr_status res <> 0 ->
  wr_errno res <> EINTR ->
  wr_errno_after_log res = wr_errno res ->
  is_refusal res.
Proof. intros Hs He Hk. split; [exact Hs | rewrite Hk; exact He]. Qed.


End RetryAtAnyChunk.


Section SendRuns.
Context {P : Platform}.

(** Without pacing the loop never waits and never moves the due-time. *)
Lemma send_loop_unpaced (script : list WriteResult) :
  forall (g : Guts.t) (data remain rc : Z) (ok : bool) (g' : Guts.t) (tr : list Event),
    Guts.bitrate g = 0 ->
    Guts.send_loop script g data remain rc = Some (ok, g', tr) ->
    waits_of tr = [] /\ Guts.due_time g' = Guts.due_time g.
Proof.
  induction script as [| res script IH]; intros g data remain rc ok g' tr Hb Hrun.
  - cbn [Guts.send_loop] in Hrun. destruct (0 <? remain); [discriminate |].
    inversion Hrun; subst. split; reflexivity.
  - assert (Hw : waits_of (first_wait g rc) = []).
    { unfold first_wait. rewrite Hb. cbn. now rewrite andb_false_r. }
    destruct (Z_lt_le_dec 0 remain) as [Hpos | Hle].
    + destruct (send_loop_turn res script g data remain rc Hpos)
        as [(_ & E) | [(_ & E) | [(_ & _ & E) | (_ & _ & E)]]];
        rewrite E in Hrun.
      * apply emit_Some in Hrun. destruct Hrun as (tr' & Hrun & ->).
        apply IH in Hrun; [| exact Hb].
        destruct Hrun as [Hwt Hd]. rewrite Hd, !waits_of_app, Hw, Hwt.
        unfold after_accepted, write_log. cbn. rewrite Hb. split; reflexivity.
      * apply emit_Some in Hrun. destruct Hrun as (tr' & Hrun & ->).
        apply IH in Hrun; [| exact Hb].
        destruct Hrun as [Hwt Hd]. rewrite Hd, !waits_of_app, Hw, Hwt.
        split; reflexivity.
      * apply emit_Some in Hrun. destruct Hrun as (tr' & Hrun & ->).
        apply IH in Hrun; [| exact Hb].
        destruct Hrun as [Hwt Hd]. rewrite Hd, !waits_of_app, Hw, Hwt.
        split; reflexivity.
      * inversion Hrun; subst. rewrite !waits_of_app, Hw. split; reflexivity.
    + rewrite send_loop_nothing in Hrun by assumption.
      inversion Hrun; subst. split; reflexivity.
Qed.

(** As long as every write is accepted or interrupted by a signal, the
    loop neither sleeps nor fails. *)
Lemma send_loop_no_refusal (script : list WriteResult) :
  forall (g : Guts.t) (data remain rc : Z) (ok : bool) (g' : Guts.t) (tr : list Event),
    Forall (fun res => wr_status res = 0 \/ is_interrupt res) script ->
    Guts.send_loop script g data remain rc = Some (ok, g', tr) ->
    ok = true /\ usleeps_of tr = [].
Proof.
  induction script as [| res script IH]; intros g data remain rc ok g' tr Hall Hrun.
  - cbn [Guts.send_loop] in Hrun. destruct (0 <? remain); [discriminate |].
    inversion Hrun; subst. split; reflexivity.
  - inversion Hall as [| x l Hres Hrest]; subst x l.
    assert (Hnot : ~ is_refusal res).
    { intros [Hs He]. destruct Hres as [H0 | [_ Hi]]; contradiction. }
    destruct (Z_lt_le_dec 0 remain) as [Hpos | Hle].
    + destruct (send_loop_turn res script g data remain rc Hpos)
        as [(_ & E) | [(_ & E) | [(Hr & _) | (Hr & _)]]];
        try contradiction; rewrite E in Hrun;
        apply emit_Some in Hrun; destruct Hrun as (tr' & Hrun & ->);
        apply IH in Hrun; try assumption; destruct Hrun as [-> Hu];
        rewrite !usleeps_of_app, usleeps_of_first_wait, Hu; split; reflexivity.
    + rewrite send_loop_nothing in Hrun by assumption.
      inversion Hrun; subst. split; reflexivity.
Qed.

Lemma ends_with_accepted_write_app (evs tr : list Event) :
  ends_with_accepted_write tr -> ends_with_accepted_write (evs ++ tr).
Proof.
  intros (tr0 & fd & data & burst & res & rc & g & -> & Hs).
  exists (evs ++ tr0), fd, data, burst, res, rc, g.
  split; [now rewrite app_assoc | exact Hs].
Qed.

Lemma ends_with_send_error_app (evs tr : list Event) :
  ends_with_send_error tr -> ends_with_send_error (evs ++ tr).
Proof.
  intros (tr0 & msg & ->). exists (evs ++ tr0), msg. now rewrite app_assoc.
Qed.

(** When the loop fails, its events split in two: the second part is
    all the attempts at one chunk, from the first one (the loop starts
    there, or the event before is the log line of an accepted write) to
    the error report; none of them is accepted, and a hundred of them
    are followed by the delay. *)
Lemma send_loop_failure (script : list WriteResult) :
  forall (g : Guts.t) (data remain rc : Z) (g' : Guts.t) (tr : list Event),
    0 <= rc <= Guts.max_retry ->
    Guts.send_loop script g data remain rc = Some (false, g', tr) ->
    exists tr1 tr2 d b k,
      tr = tr1 ++ tr2 /\
      ends_with_send_error tr2 /\
      accepted_writes_of tr2 = [] /\
      writes_of tr2 = repeat (d, b) k /\
      ((ends_with_accepted_write tr1 /\
        usleeps_of tr2 = repeat Guts.error_delay 100 /\ (101 <= k)%nat) \/
       (tr1 = [] /\
        usleeps_of tr2 = repeat Guts.error_delay (Z.to_nat (Guts.max_retry - rc)) /\
        d = data /\ b = Z.min remain ITE_MAX_SEND_BYTES /\
        Guts.max_retry + 1 - rc <= Z.of_nat k)).
Proof.
  assert (HR : Guts.max_retry = 100) by reflexivity.
  induction script as [| res script IH]; intros g data remain rc g' tr Hrc Hrun.
  - cbn [Guts.send_loop] in Hrun. destruct (0 <? remain); discriminate.
  - destruct (Z_lt_le_dec 0 remain) as [Hpos | Hle];
      [| rewrite send_loop_nothing in Hrun by assumption; discriminate].
    assert (Haw : accepted_writes_of (first_wait g rc) = [])
      by apply accepted_writes_of_first_wait.
    destruct (send_loop_turn res script g data remain rc Hpos)
      as [(Hs & E) | [([Hs He] & E) | [([Hs He] & Hlt & E) | ([Hs He] & Hge & E)]]];
      rewrite E in Hrun.
    + apply emit_Some in Hrun. destruct Hrun as (tr' & Hrun & ->).
      apply IH in Hrun; [| lia].
      destruct Hrun as (tr1 & tr2 & d & b & k & -> & He & Ha & Hw & Hcase).
      eexists (_ ++ tr1), tr2, d, b, k.
      split; [now rewrite app_assoc |]. split; [exact He |].
      split; [exact Ha |]. split; [exact Hw |].
      left. destruct Hcase as [(Hc & Hu & Hk) | (-> & Hu & _ & _ & Hk)].
      * split; [now apply ends_with_accepted_write_app | split; assumption].
      * rewrite HR in *. split; [| split; [exact Hu | lia]].
        rewrite app_nil_r. do 7 eexists. split; [reflexivity | exact Hs].
    + apply emit_Some in Hrun. destruct Hrun as (tr' & Hrun & ->).
      apply IH in Hrun; [| lia].
      destruct Hrun as (tr1 & tr2 & d & b & k & -> & Herr & Ha & Hw & Hcase).
      destruct Hcase as [(Hc & Hu & Hk) | (-> & Hu & -> & -> & Hk)].
      * eexists (_ ++ tr1), tr2, d, b, k.
        split; [now rewrite app_assoc |]. split; [exact Herr |].
        split; [exact Ha |]. split; [exact Hw |].
        left. split; [now apply ends_with_accepted_write_app | split; assumption].
      * eexists [], _, data, (Z.min remain ITE_MAX_SEND_BYTES), (S k).
        split; [reflexivity |].
        split; [now apply ends_with_send_error_app |].
        rewrite !accepted_writes_of_app, !writes_of_app, !usleeps_of_app,
          Haw, writes_of_first_wait, usleeps_of_first_wait, Ha, Hw, Hu.
        unfold write_log. cbn [accepted_writes_of writes_of usleeps_of flat_map app].
        apply Z.eqb_neq in Hs. rewrite Hs.
        split; [reflexivity |]. split; [reflexivity |].
        right. repeat split. lia.
    + apply emit_Some in Hrun. destruct Hrun as (tr' & Hrun & ->).
      apply IH in Hrun; [| lia].
      destruct Hrun as (tr1 & tr2 & d & b & k & -> & Herr & Ha & Hw & Hcase).
      destruct Hcase as [(Hc & Hu & Hk) | (-> & Hu & -> & -> & Hk)].
      * eexists (_ ++ tr1), tr2, d, b, k.
        split; [now rewrite app_assoc |]. split; [exact Herr |].
        split; [exact Ha |]. split; [exact Hw |].
        left. split; [now apply ends_with_accepted_write_app | split; assumption].
      * eexists [], _, data, (Z.min remain ITE_MAX_SEND_BYTES), (S k).
        split; [reflexivity |].
        split; [now apply ends_with_send_error_app |].
        rewrite !accepted_writes_of_app, !writes_of_app, !usleeps_of_app,
          Haw, writes_of_first_wait, usleeps_of_first_wait, Ha, Hw, Hu.
        unfold write_log. cbn [accepted_writes_of writes_of usleeps_of flat_map app].
        apply Z.eqb_neq in Hs. rewrite Hs.
        split; [reflexivity |]. split; [reflexivity |].
        right. split; [reflexivity |]. split; [| repeat split; lia].
        replace (Z.to_nat (Guts.max_retry - rc))
          with (S (Z.to_nat (Guts.max_retry - (rc + 1)))) by lia.
        reflexivity.
    + inversion Hrun; subst.
      eexists [], _, data, (Z.min remain ITE_MAX_SEND_BYTES), 1%nat.
      split; [reflexivity |].
      split.
      { eexists (first_wait g rc ++ [_; _]), _.
        rewrite <- app_assoc. reflexivity. }
      rewrite !accepted_writes_of_app, !writes_of_app, !usleeps_of_app,
        Haw, writes_of_first_wait, usleeps_of_first_wait.
      unfold write_log. cbn [accepted_writes_of writes_of usleeps_of flat_map app].
      apply Z.eqb_neq in Hs. rewrite Hs.
      split; [reflexivity |]. split; [reflexivity |].
      right. split; [reflexivity |]. split; [| repeat split; lia].
      replace (Guts.max_retry - rc) with 0 by lia. reflexivity.
Qed.

End SendRuns.

Section SendPacing.
Context {P : Platform}.

Lemma due_time_advance_zero (bitrate : Z) : Guts.due_time_advance 0 bitrate = 0.
Proof.
  unfold Guts.due_time_advance.
  change (wrap64 (0 * 8 * PKT_SIZE * NanoSecPerSec)) with 0. apply Zdiv_0_l.
Qed.

Lemma pacing_time_zero (bitrate : Z) : pacing_time bitrate 0 = 0.
Proof.
  unfold pacing_time. destruct (bitrate =? 0); [reflexivity |].
  cbn [Z.div Z.modulo Z.div_eucl]. rewrite due_time_advance_zero. reflexivity.
Qed.

(** The time for what remains is the advance of the next chunk plus
    the time for the rest. *)
Lemma pacing_time_step (bitrate remain : Z) :
  0 < remain ->
  bitrate <> 0 ->
  pacing_time bitrate remain
  = Guts.due_time_advance (Z.min remain ITE_MAX_SEND_BYTES) bitrate
    + pacing_time bitrate (remain - Z.min remain ITE_MAX_SEND_BYTES).
Proof.
  intros Hpos Hb. assert (HM : ITE_MAX_SEND_BYTES = 32336) by reflexivity.
  unfold pacing_time. apply Z.eqb_neq in Hb. rewrite Hb.
  destruct (Z_lt_le_dec remain ITE_MAX_SEND_BYTES) as [Hlt | Hge].
  - rewrite Z.min_l by lia. rewrite Z.sub_diag.
    rewrite (Z.div_small remain), (Z.mod_small remain) by lia.
    rewrite Z.div_0_l, Z.mod_0_l by lia. rewrite due_time_advance_zero. lia.
  - rewrite Z.min_r by lia.
    replace remain with ((remain - ITE_MAX_SEND_BYTES) + 1 * ITE_MAX_SEND_BYTES) at 1 2
      by lia.
    rewrite Z.div_add, Z.mod_add by lia. lia.
Qed.

(** When the loop succeeds, the sent counter has moved by the number
    of bytes and the due-time by one advance for each chunk, whatever
    number of retries there were. *)
Lemma send_loop_pacing (script : list WriteResult) :
  forall (g : Guts.t) (data remain rc : Z) (g' : Guts.t) (tr : list Event),
    0 <= remain ->
    uint64 (Guts.pkt_sent g) ->
    Guts.send_loop script g data remain rc = Some (true, g', tr) ->
    Guts.pkt_sent g' = wrap64 (Guts.pkt_sent g + remain) /\
    Guts.due_time g' = Guts.due_time g + pacing_time (Guts.bitrate g) remain.
Proof.
  assert (Hbase : forall g, uint64 (Guts.pkt_sent g) ->
            Guts.pkt_sent g = wrap64 (Guts.pkt_sent g + 0) /\
            Guts.due_time g = Guts.due_time g + pacing_time (Guts.bitrate g) 0).
  { intros g Hg. rewrite pacing_time_zero, !Z.add_0_r.
    split; [symmetry; now apply wrap64_small | reflexivity]. }
  induction script as [| res script IH]; intros g data remain rc g' tr Hr Hp Hrun.
  - cbn [Guts.send_loop] in Hrun. destruct (0 <? remain) eqn:E; [discriminate |].
    apply Z.ltb_ge in E. inversion Hrun; subst.
    assert (remain = 0) by lia. subst remain. now apply Hbase.
  - destruct (Z.eq_dec remain 0) as [-> | Hne].
    { rewrite send_loop_done in Hrun. inversion Hrun; subst. now apply Hbase. }
    assert (Hpos : 0 < remain) by lia.
    destruct (send_loop_turn res script g data remain rc Hpos)
      as [(_ & E) | [(_ & E) | [(_ & _ & E) | (_ & _ & E)]]];
      rewrite E in Hrun.
    + apply emit_Some in Hrun. destruct Hrun as (tr' & Hrun & _).
      apply IH in Hrun; [| lia | apply wrap64_range].
      destruct Hrun as [Hpk Hdue]. rewrite Hpk, Hdue.
      cbn [after_accepted Guts.pkt_sent Guts.due_time Guts.bitrate].
      rewrite wrap64_add_l. split; [f_equal; lia |].
      destruct (Guts.bitrate g =? 0) eqn:Eb.
      * unfold pacing_time. rewrite Eb. reflexivity.
      * apply Z.eqb_neq in Eb.
        rewrite (pacing_time_step (Guts.bitrate g) remain Hpos Eb). lia.
    + apply emit_Some in Hrun. destruct Hrun as (tr' & Hrun & _).
      apply IH in Hrun; [exact Hrun | lia | exact Hp].
    + apply emit_Some in Hrun. destruct Hrun as (tr' & Hrun & _).
      apply IH in Hrun; [exact Hrun | lia | exact Hp].
    + discriminate.
Qed.

(** With pacing and every write accepted, the loop waits once before
    each write; the deadlines are one advance of a full chunk apart. *)
Lemma send_loop_deadlines (script : list WriteResult) :
  forall (g : Guts.t) (data remain : Z) (ok : bool) (g' : Guts.t) (tr : list Event),
    Guts.bitrate g <> 0 ->
    Forall (fun res => wr_status res = 0) script ->
    Guts.send_loop script g data remain 0 = Some (ok, g', tr) ->
    waits_of tr
    = deadlines_spec (List.length (writes_of tr)) (Guts.due_time g)
        (Guts.due_time_advance ITE_MAX_SEND_BYTES (Guts.bitrate g)).
Proof.
  assert (HM : ITE_MAX_SEND_BYTES = 32336) by reflexivity.
  induction script as [| res script IH]; intros g data remain ok g' tr Hb Hall Hrun.
  - cbn [Guts.send_loop] in Hrun. destruct (0 <? remain); [discriminate |].
    inversion Hrun; subst. reflexivity.
  - inversion Hall as [| x l Hs Hrest]; subst x l.
    destruct (Z_lt_le_dec 0 remain) as [Hpos | Hle].
    + rewrite send_loop_accepted in Hrun by assumption.
      apply emit_Some in Hrun. destruct Hrun as (tr' & Hrun & ->).
      assert (Hfw : first_wait g 0 = [Wait (Guts.due_time g)]).
      { unfold first_wait. apply Z.eqb_neq in Hb. rewrite Hb. reflexivity. }
      rewrite Hfw, !waits_of_app, !writes_of_app.
      unfold write_log. cbn [waits_of writes_of flat_map app List.length].
      destruct (Z_lt_le_dec remain ITE_MAX_SEND_BYTES) as [Hlt | Hge].
      * rewrite Z.min_l in Hrun by lia. rewrite Z.sub_diag in Hrun.
        rewrite send_loop_done in Hrun. inversion Hrun; subst. reflexivity.
      * rewrite Z.min_r in Hrun by lia.
        apply IH in Hrun; [| exact Hb | exact Hrest].
        rewrite Hrun. cbn [deadlines_spec after_accepted Guts.due_time Guts.bitrate].
        apply Z.eqb_neq in Hb. rewrite Hb. reflexivity.
    + rewrite send_loop_nothing in Hrun by assumption.
      inversion Hrun; subst. reflexivity.
Qed.

Lemma schedule_of_app (a b : list Event) :
  schedule_of (a ++ b) = schedule_of a ++ schedule_of b.
Proof. apply flat_map_app. Qed.

Lemma schedule_of_resync (g : Guts.t) (now : Z) :
  schedule_of (snd (Guts.resync g now)) = [].
Proof.
  unfold Guts.resync.
  destruct (Guts.bitrate g =? 0); simpl; [reflexivity |].
  destruct (Guts.pkt_sent g =? 0); simpl; [reflexivity |].
  destruct (Guts.due_time g <? now); reflexivity.
Qed.

(** With pacing and every write accepted, the waits and the writes of
    the loop alternate, each wait right before its write. *)
Lemma send_loop_schedule (script : list WriteResult) :
  forall (g : Guts.t) (data remain : Z) (ok : bool) (g' : Guts.t) (tr : list Event),
    Guts.bitrate g <> 0 ->
    Forall (fun res => wr_status res = 0) script ->
    Guts.send_loop script g data remain 0 = Some (ok, g', tr) ->
    schedule_of tr
    = paced_schedule (Guts.due_time g)
        (Guts.due_time_advance ITE_MAX_SEND_BYTES (Guts.bitrate g)) (writes_of tr).
Proof.
  assert (HM : ITE_MAX_SEND_BYTES = 32336) by reflexivity.
  induction script as [| res script IH]; intros g data remain ok g' tr Hb Hall Hrun.
  - cbn [Guts.send_loop] in Hrun. destruct (0 <? remain); [discriminate |].
    inversion Hrun; subst. reflexivity.
  - inversion Hall as [| x l Hs Hrest]; subst x l.
    destruct (Z_lt_le_dec 0 remain) as [Hpos | Hle].
    + rewrite send_loop_accepted in Hrun by assumption.
      apply emit_Some in Hrun. destruct Hrun as (tr' & Hrun & ->).
      assert (Hfw : first_wait g 0 = [Wait (Guts.due_time g)]).
      { unfold first_wait. apply Z.eqb_neq in Hb. rewrite Hb. reflexivity. }
      rewrite Hfw, !schedule_of_app, !writes_of_app.
      unfold write_log. cbn [schedule_of writes_of flat_map app paced_schedule].
      do 2 f_equal.
      destruct (Z_lt_le_dec remain ITE_MAX_SEND_BYTES) as [Hlt | Hge].
      * rewrite Z.min_l in Hrun by lia. rewrite Z.sub_diag in Hrun.
        rewrite send_loop_done in Hrun. inversion Hrun; subst. reflexivity.
      * rewrite Z.min_r in Hrun by lia.
        apply IH in Hrun; [| exact Hb | exact Hrest].
        rewrite Hrun. cbn [after_accepted Guts.due_time Guts.bitrate].
        apply Z.eqb_neq in Hb. rewrite Hb. reflexivity.
    + rewrite send_loop_nothing in Hrun by assumption.
      inversion Hrun; subst. reflexivity.
Qed.

End SendPacing.

(** ** Runs of [send], whatever the driver answers *)

Section SendProperties.
Context {P : Platform}.

Lemma send_cases (g : Guts.t) (now n : Z) (script : list WriteResult)
      (ok : bool) (g' : Guts.t) (tr : list Event) :
  Guts.send g now n script = Some (ok, g', tr) ->
  (Guts.transmitting g = false /\ ok = false /\ g' = g /\
   tr = [ReportError "transmission not started" []]) \/
  (Guts.transmitting g = true /\
   exists tr',
     Guts.send_loop script (fst (Guts.resync g now)) 0 (wrap64 (n * PKT_SIZE)) 0
     = Some (ok, g', tr') /\
     tr = (snd (Guts.resync g now) ++
           [ReportLog 2 "HiDesDevice: send %d packets, bitrate = %'d b/s"
              [AInt n; AInt (Guts.bitrate (fst (Guts.resync g now)))]]) ++ tr').
Proof.
  intros Hrun. destruct (Guts.transmitting g) eqn:Ht.
  - right. split; [reflexivity |].
    rewrite (send_unfold g now n script Ht) in Hrun.
    apply emit_Some in Hrun. exact Hrun.
  - left. unfold Guts.send in Hrun. rewrite Ht in Hrun. cbn in Hrun.
    inversion Hrun; subst. repeat split.
Qed.

(** [send] never changes the descriptor, the transmitting flag or the
    bit rate, whether it succeeds or fails: after a failed [send] the
    session is still transmitting. *)
Theorem send_preserves_session (g : Guts.t) (now n : Z) (script : list WriteResult)
        (ok : bool) (g' : Guts.t) (tr : list Event) :
  Guts.send g now n script = Some (ok, g', tr) ->
  Guts.fd g' = Guts.fd g /\
  Guts.transmitting g' = Guts.transmitting g /\
  Guts.bitrate g' = Guts.bitrate g.
Proof.
  intros Hrun. apply send_cases in Hrun.
  destruct Hrun as [(_ & _ & -> & _) | (_ & tr' & Hrun & _)]; [repeat split |].
  apply send_loop_frame in Hrun. destruct Hrun as (Hfd & Htx & Hbr).
  destruct (resync_frame g now) as (Hfd' & Htx' & Hbr' & _).
  rewrite Hfd, Htx, Hbr. repeat split; assumption.
Qed.

(** The statistics of [send]: whatever the driver answers, the total
    is moved by the number of [write(2)] calls made and the failure
    count by the number of those that returned a non-zero status
    (modulo 2^64). *)
Theorem send_counts_every_write (g : Guts.t) (now n : Z) (script : list WriteResult)
        (ok : bool) (g' : Guts.t) (tr : list Event) :
  uint64 (Guts.all_write g) ->
  uint64 (Guts.fail_write g) ->
  Guts.send g now n script = Some (ok, g', tr) ->
  Guts.all_write g'
  = wrap64 (Guts.all_write g + Z.of_nat (List.length (writes_of tr))) /\
  Guts.fail_write g'
  = wrap64 (Guts.fail_write g + Z.of_nat (List.length (failed_writes_of tr))).
Proof.
  intros Ha Hf Hrun. apply send_cases in Hrun.
  destruct Hrun as [(_ & _ & -> & ->) | (_ & tr' & Hrun & ->)].
  - cbn. rewrite !Z.add_0_r, !wrap64_small by assumption. split; reflexivity.
  - destruct (resync_frame g now) as (_ & _ & _ & Haw & Hfw).
    destruct (resync_events g now) as (Hw & Hfl & _ & _).
    apply send_loop_statistics in Hrun; [| rewrite Haw; exact Ha | rewrite Hfw; exact Hf].
    rewrite Haw, Hfw in Hrun.
    rewrite !writes_of_app, !failed_writes_of_app, Hw, Hfl. exact Hrun.
Qed.

(** Zero bit rate: [send] never waits for a deadline and leaves the
    due-time and, at its head, the sent counter alone. *)
Theorem send_unpaced_never_waits (g : Guts.t) (now n : Z) (script : list WriteResult)
        (ok : bool) (g' : Guts.t) (tr : list Event) :
  Guts.bitrate g = 0 ->
  Guts.send g now n script = Some (ok, g', tr) ->
  waits_of tr = [] /\
  Guts.due_time g' = Guts.due_time g /\
  Guts.resync g now = (g, []).
Proof.
  intros Hb Hrun.
  assert (Hre : Guts.resync g now = (g, [])) by (unfold Guts.resync; now rewrite Hb).
  apply send_cases in Hrun.
  destruct Hrun as [(_ & _ & -> & ->) | (_ & tr' & Hrun & ->)]; [repeat split; assumption |].
  rewrite Hre in *. cbn [fst snd] in *.
  apply send_loop_unpaced in Hrun; [| exact Hb].
  destruct Hrun as [Hw Hd]. rewrite !waits_of_app, Hw. repeat split; assumption.
Qed.

(** A write that the loop takes as interrupted by a signal (a non-zero
    status, and [errno] equal to [EINTR] when the loop tests it, after
    the log line) costs no retry: as long as every write is accepted or
    interrupted, [send] on a transmitting session makes no delay and
    does not fail, however many interruptions. *)
Theorem send_interrupts_cost_no_retry (g : Guts.t) (now n : Z)
        (script : list WriteResult) (ok : bool) (g' : Guts.t) (tr : list Event) :
  Guts.transmitting g = true ->
  Forall (fun res => wr_status res = 0 \/ is_interrupt res) script ->
  Guts.send g now n script = Some (ok, g', tr) ->
  ok = true /\ usleeps_of tr = [].
Proof.
  intros Ht Hall Hrun. apply send_cases in Hrun.
  destruct Hrun as [(Hf & _) | (_ & tr' & Hrun & ->)]; [congruence |].
  apply send_loop_no_refusal in Hrun; [| exact Hall].
  destruct Hrun as [-> Hu].
  destruct (resync_events g now) as (_ & _ & Hus & _).
  rewrite !usleeps_of_app, Hus, Hu. split; reflexivity.
Qed.

(** [send] on a transmitting session fails only the way of the retry
    bound.  Its events split in two.  The first part has no write at
    all, or ends with an accepted write and its log line.  The second
    part is then all the attempts at the chunk that failed, up to the
    error report: at least 101 writes of that one chunk, none accepted,
    and exactly 100 delays of 100 microseconds. *)
Theorem send_fails_only_after_max_retry (g : Guts.t) (now n : Z)
        (script : list WriteResult) (g' : Guts.t) (tr : list Event) :
  Guts.transmitting g = true ->
  Guts.send g now n script = Some (false, g', tr) ->
  exists tr1 tr2 d b k,
    tr = tr1 ++ tr2 /\
    (writes_of tr1 = [] \/ ends_with_accepted_write tr1) /\
    ends_with_send_error tr2 /\
    accepted_writes_of tr2 = [] /\
    writes_of tr2 = repeat (d, b) k /\
    (101 <= k)%nat /\
    usleeps_of tr2 = repeat 100 100.
Proof.
  intros Ht Hrun. apply send_cases in Hrun.
  destruct Hrun as [(Hf & _) | (_ & tr' & Hrun & ->)]; [congruence |].
  apply send_loop_failure in Hrun; [| unfold Guts.max_retry; lia].
  destruct Hrun as (tr1 & tr2 & d & b & k & -> & Herr & Ha & Hw & Hcase).
  eexists (_ ++ tr1), tr2, d, b, k.
  split; [now rewrite app_assoc |].
  destruct Hcase as [(Hc & Hu & Hk) | (-> & Hu & _ & _ & Hk)].
  - split; [right; now apply ends_with_accepted_write_app |].
    split; [exact Herr |]. split; [exact Ha |]. split; [exact Hw |].
    split; [exact Hk | exact Hu].
  - split; [left; rewrite app_nil_r, writes_of_app, writes_of_resync; reflexivity |].
    split; [exact Herr |]. split; [exact Ha |]. split; [exact Hw |].
    unfold Guts.max_retry in Hk. split; [lia | exact Hu].
Qed.

(** After a successful [send] of [n] packets the sent counter has
    moved by [n * 188] and the due-time by one advance for each chunk,
    from the values the baseline check left: retried and interrupted
    writes move neither. *)
Theorem send_success_pacing_state (g : Guts.t) (now n : Z) (script : list WriteResult)
        (g' : Guts.t) (tr : list Event) :
  Guts.transmitting g = true ->
  0 <= n ->
  n * PKT_SIZE < 2 ^ 64 ->
  uint64 (Guts.pkt_sent g) ->
  Guts.send g now n script = Some (true, g', tr) ->
  let g1 := fst (Guts.resync g now) in
  Guts.pkt_sent g' = wrap64 (Guts.pkt_sent g1 + n * PKT_SIZE) /\
  Guts.due_time g' = Guts.due_time g1 + pacing_time (Guts.bitrate g) (n * PKT_SIZE).
Proof.
  intros Ht Hn Hsize Hp Hrun. cbv zeta. apply send_cases in Hrun.
  destruct Hrun as [(Hf & _) | (_ & tr' & Hrun & _)]; [congruence |].
  rewrite wrap64_small in Hrun by (unfold PKT_SIZE in *; lia).
  destruct (resync_frame g now) as (_ & _ & Hbr & _).
  apply send_loop_pacing in Hrun; [| unfold PKT_SIZE; lia |].
  - rewrite Hbr in Hrun. exact Hrun.
  - unfold Guts.resync.
    destruct (negb _); [destruct (_ =? _); [| destruct (_ <? _)] |]; cbn;
      try exact Hp; unfold uint64; lia.
Qed.

(** A paced [send] whose writes are all accepted waits once before
    each write, and right before it: its waits and writes, in the order
    of the events, are a wait, a write, a wait, a write, and so on.
    The first deadline is the due-time the baseline check left, and
    each next one is later by the advance of a full chunk. *)
Theorem send_paced_deadlines (g : Guts.t) (now n : Z) (script : list WriteResult)
        (ok : bool) (g' : Guts.t) (tr : list Event) :
  Guts.transmitting g = true ->
  Guts.bitrate g <> 0 ->
  Forall (fun res => wr_status res = 0) script ->
  Guts.send g now n script = Some (ok, g', tr) ->
  schedule_of tr
  = paced_schedule (Guts.due_time (fst (Guts.resync g now)))
      (Guts.due_time_advance ITE_MAX_SEND_BYTES (Guts.bitrate g)) (writes_of tr) /\
  waits_of tr
  = deadlines_spec (List.length (writes_of tr))
      (Guts.due_time (fst (Guts.resync g now)))
      (Guts.due_time_advance ITE_MAX_SEND_BYTES (Guts.bitrate g)).
Proof.
  intros Ht Hb Hall Hrun. apply send_cases in Hrun.
  destruct Hrun as [(Hf & _) | (_ & tr' & Hrun & ->)]; [congruence |].
  destruct (resync_frame g now) as (_ & _ & Hbr & _).
  destruct (resync_events g now) as (Hw & _ & _ & Hwt).
  split.
  - apply send_loop_schedule in Hrun; [| rewrite Hbr; exact Hb | exact Hall].
    rewrite Hbr in Hrun.
    rewrite !schedule_of_app, !writes_of_app, Hw, schedule_of_resync, Hrun.
    reflexivity.
  - apply send_loop_deadlines in Hrun; [| rewrite Hbr; exact Hb | exact Hall].
    rewrite Hbr in Hrun.
    rewrite !waits_of_app, !writes_of_app, Hw, Hwt, Hrun. reflexivity.
Qed.

End SendProperties.

(** A paced request of 200 packets whose second chunk is refused
    twice. *)
Lemma send_preserves_session_witness :
  exists ok g' tr,
    Guts.send (P := accepting_platform) paced_guts 5 200
      [write_ok; write_full; write_full; write_ok] = Some (ok, g', tr) /\
    Guts.fd g' = 3 /\ Guts.transmitting g' = true /\ Guts.bitrate g' = 1504000.
Proof.
  eassert (E : Guts.send (P := accepting_platform) paced_guts 5 200 [write_ok;
             write_full; write_full; write_ok] = Some _)
    by (vm_compute; reflexivity).
  do 3 eexists. split; [exact E |].
  apply (send_preserves_session (P := accepting_platform) paced_guts 5 200
           [write_ok; write_full; write_full; write_ok] _ _ _ E).
Defined.

(** The same request: four writes, two of them failed. *)
Lemma send_counts_every_write_witness :
  uint64 (Guts.all_write paced_guts) /\
  uint64 (Guts.fail_write paced_guts) /\
  exists ok g' tr,
    Guts.send (P := accepting_platform) paced_guts 5 200
      [write_ok; write_full; write_full; write_ok] = Some (ok, g', tr) /\
    Guts.all_write g' = 4 /\ Guts.fail_write g' = 2.
Proof.
  eassert (E : Guts.send (P := accepting_platform) paced_guts 5 200 [write_ok;
             write_full; write_full; write_ok] = Some _)
    by (vm_compute; reflexivity).
  assert (H0 : uint64 0) by (unfold uint64; split; [discriminate | reflexivity]).
  split; [exact H0 | split; [exact H0 |]].
  do 3 eexists. split; [exact E |].
  apply (send_counts_every_write (P := accepting_platform) paced_guts 5 200
           [write_ok; write_full; write_full; write_ok] _ _ _ H0 H0 E).
Defined.

(** An unpaced request of 200 packets. *)
Lemma send_unpaced_never_waits_witness :
  Guts.bitrate unpaced_guts = 0 /\
  exists ok g' tr,
    Guts.send (P := accepting_platform) unpaced_guts 5 200
      [write_ok; write_full; write_ok] = Some (ok, g', tr) /\
    waits_of tr = [] /\ Guts.due_time g' = 0.
Proof.
  eassert (E : Guts.send (P := accepting_platform) unpaced_guts 5 200
             [write_ok; write_full; write_ok] = Some _)
    by (vm_compute; reflexivity).
  split; [reflexivity |].
  do 3 eexists. split; [exact E |].
  destruct (send_unpaced_never_waits (P := accepting_platform) unpaced_guts 5 200
              [write_ok; write_full; write_ok] _ _ _ eq_refl E) as (Hw & Hd & _).
  split; [exact Hw | exact Hd].
Defined.

(** One packet whose write is interrupted 150 times before it is
    accepted: more interruptions than the retry bound. *)
Lemma send_interrupts_cost_no_retry_witness :
  Guts.transmitting paced_guts = true /\
  Forall (fun res => wr_status res = 0 \/ is_interrupt res)
    (repeat write_interrupted 150 ++ [write_ok]) /\
  exists g' tr,
    Guts.send (P := accepting_platform) paced_guts 5 1
      (repeat write_interrupted 150 ++ [write_ok]) = Some (true, g', tr) /\
    usleeps_of tr = [] /\
    List.length (writes_of tr) = 151%nat.
Proof.
  eassert (E : Guts.send (P := accepting_platform) paced_guts 5 1 (repeat
             write_interrupted 150 ++ [write_ok]) = Some _)
    by (vm_compute; reflexivity).
  assert (Hall : Forall (fun res => wr_status res = 0 \/ is_interrupt res)
                   (repeat write_interrupted 150 ++ [write_ok])).
  { apply Forall_app. split.
    - apply Forall_forall. intros x Hx. apply repeat_spec in Hx. subst x.
      right. split; [discriminate | reflexivity].
    - constructor; [left; reflexivity | constructor]. }
  split; [reflexivity | split; [exact Hall |]].
  do 2 eexists. split; [exact E |].
  split; [| vm_compute; reflexivity].
  apply (send_interrupts_cost_no_retry (P := accepting_platform) paced_guts 5 1
           (repeat write_interrupted 150 ++ [write_ok]) true _ _ eq_refl Hall E).
Defined.

(** The test reads [errno] after the log line: an interrupted write
    whose [errno] the log line has reset is retried after a delay, as a
    refusal is. *)
Example send_interrupt_errno_reset_by_log :
  exists g' tr,
    Guts.send (P := accepting_platform) paced_guts 5 1
      [mkWriteResult (-1) EINTR 0; write_ok] = Some (true, g', tr) /\
    usleeps_of tr = [100].
Proof. do 2 eexists. split; vm_compute; reflexivity. Qed.

(** 200 packets: the first chunk accepted after 60 retries, the second
    one refused 101 times. *)
Lemma send_fails_only_after_max_retry_witness :
  Guts.transmitting paced_guts = true /\
  exists g' tr,
    Guts.send (P := accepting_platform) paced_guts 5 200
      (repeat write_full 60 ++ [write_ok] ++ repeat write_full 101)
    = Some (false, g', tr) /\
    exists tr1 tr2 d b k,
      tr = tr1 ++ tr2 /\
      (writes_of tr1 = [] \/ ends_with_accepted_write tr1) /\
      ends_with_send_error tr2 /\
      accepted_writes_of tr2 = [] /\
      writes_of tr2 = repeat (d, b) k /\ (101 <= k)%nat /\
      usleeps_of tr2 = repeat 100 100.
Proof.
  eassert (E : Guts.send (P := accepting_platform) paced_guts 5 200
             (repeat write_full 60 ++ [write_ok] ++ repeat write_full 101) = Some _)
    by (vm_compute; reflexivity).
  split; [reflexivity |].
  do 2 eexists. split; [exact E |].
  apply (send_fails_only_after_max_retry (P := accepting_platform) paced_guts 5 200
           (repeat write_full 60 ++ [write_ok] ++ repeat write_full 101) _ _ eq_refl E).
Defined.

(** 200 packets at 1504000 b/s, the second chunk refused twice: the
    counter reads 37600 and the due-time is 37.6 s after the baseline. *)
Lemma send_success_pacing_state_witness :
  Guts.transmitting paced_guts = true /\
  0 <= 200 /\
  200 * PKT_SIZE < 2 ^ 64 /\
  uint64 (Guts.pkt_sent paced_guts) /\
  exists g' tr,
    Guts.send (P := accepting_platform) paced_guts 5 200
      [write_ok; write_full; write_full; write_ok] = Some (true, g', tr) /\
    Guts.pkt_sent g' = 37600 /\
    Guts.due_time g' = 5 + 37600000000.
Proof.
  eassert (E : Guts.send (P := accepting_platform) paced_guts 5 200 [write_ok;
             write_full; write_full; write_ok] = Some _)
    by (vm_compute; reflexivity).
  assert (H0 : uint64 0) by (unfold uint64; split; [discriminate | reflexivity]).
  split; [reflexivity | split; [discriminate | split; [reflexivity | split; [exact H0 |]]]].
  do 2 eexists. split; [exact E |].
  apply (send_success_pacing_state (P := accepting_platform) paced_guts 5 200
           [write_ok; write_full; write_full; write_ok] _ _
           eq_refl ltac:(discriminate) eq_refl H0 E).
Defined.

(** 1000 packets at 1504000 b/s: six waits, 32.336 s apart, each one
    right before the write of its chunk. *)
Lemma send_paced_deadlines_witness :
  Guts.transmitting paced_guts = true /\
  Guts.bitrate paced_guts <> 0 /\
  Forall (fun res => wr_status res = 0) (repeat write_ok 6) /\
  exists ok g' tr,
    Guts.send (P := accepting_platform) paced_guts 5 1000 (repeat write_ok 6)
    = Some (ok, g', tr) /\
    schedule_of tr
    = [inl 5; inr (0, 32336);
       inl 32336000005; inr (32336, 32336);
       inl 64672000005; inr (64672, 32336);
       inl 97008000005; inr (97008, 32336);
       inl 129344000005; inr (129344, 32336);
       inl 161680000005; inr (161680, 26320)] /\
    waits_of tr
    = [5; 32336000005; 64672000005; 97008000005; 129344000005; 161680000005].
Proof.
  eassert (E : Guts.send (P := accepting_platform) paced_guts 5 1000 (repeat
             write_ok 6) = Some _)
    by (vm_compute; reflexivity).
  assert (Hok : Forall (fun res => wr_status res = 0) (repeat write_ok 6))
    by (repeat constructor).
  split; [reflexivity | split; [discriminate | split; [exact Hok |]]].
  do 3 eexists. split; [exact E |].
  apply (send_paced_deadlines (P := accepting_platform) paced_guts 5 1000
           (repeat write_ok 6) _ _ _ eq_refl ltac:(discriminate) Hok E).
Defined.

(** ** Device names *)

Section DeviceNames.
Context {P : Platform} {H : Host}.

Lemma nth_error_skipn_cons {A : Type} (l : list A) (i : nat) (x : A) :
  nth_error l i = Some x -> skipn i l = x :: skipn (S i) l.
Proof.
  revert i. induction l as [| a l IH]; intros [| i] Hn; cbn in *; try discriminate.
  - inversion Hn; subst. reflexivity.
  - now apply IH.
Qed.

Lemma firstn_snoc {A : Type} (l : list A) (i : nat) (x : A) :
  nth_error l i = Some x -> firstn (S i) l = firstn i l ++ [x].
Proof.
  revert i. induction l as [| a l IH]; intros [| i] Hn; cbn in *; try discriminate.
  - inversion Hn; subst. reflexivity.
  - f_equal. now apply IH.
Qed.

(** The loop with the iterator at [it]: the names before it are kept,
    the names from it on are filtered. *)
Lemma erase_loop_filter (fuel : nat) :
  forall (names : list string) (it : nat),
    (List.length names - it <= fuel)%nat ->
    Lifecycle.erase_loop fuel names it
    = firstn it names ++ filter (fun s => negb (contain s "-rx")) (skipn it names).
Proof.
  induction fuel as [| fuel IH]; intros names it Hlen.
  - cbn [Lifecycle.erase_loop].
    rewrite skipn_all2 by lia. rewrite firstn_all2 by lia.
    cbn. now rewrite app_nil_r.
  - cbn [Lifecycle.erase_loop].
    destruct (nth_error names it) as [s |] eqn:En.
    + assert (Hit : (it < List.length names)%nat)
        by (apply nth_error_Some; congruence).
      rewrite (nth_error_skipn_cons names it s En). cbn [filter].
      destruct (contain s "-rx") eqn:Ec; cbn [negb].
      * rewrite IH.
        -- unfold erase.
           rewrite firstn_app, firstn_firstn, Nat.min_id.
           rewrite length_firstn, Nat.min_l, Nat.sub_diag by lia.
           cbn [firstn]. rewrite app_nil_r.
           rewrite skipn_app, length_firstn, Nat.min_l, Nat.sub_diag by lia.
           cbn [skipn]. rewrite skipn_firstn_comm, Nat.sub_diag. cbn [firstn app].
           reflexivity.
        -- unfold erase. rewrite length_app, length_firstn, length_skipn. lia.
      * rewrite IH by lia.
        rewrite (firstn_snoc names it s En), <- app_assoc. reflexivity.
    + apply nth_error_None in En.
      rewrite skipn_all2 by lia. rewrite firstn_all2 by lia.
      cbn. now rewrite app_nil_r.
Qed.

(** [GetAllDeviceNames] returns the names that the wildcard expands
    to, without those that contain "-rx", in the same order: the loop
    that erases in place ends within its bound and is a filter. *)
Theorem GetAllDeviceNames_filter :
  Lifecycle.GetAllDeviceNames
  = filter (fun s => negb (contain s "-rx")) (ExpandWildcard "/dev/usb-it95?x*").
Proof.
  unfold Lifecycle.GetAllDeviceNames. rewrite erase_loop_filter by lia.
  reflexivity.
Qed.

End DeviceNames.

(** ** Null-terminated copies of the driver's strings *)

Section ZCopy.

Lemma c_str_no_nul (l : list ascii) : ~ In Ascii.zero (c_str l).
Proof.
  induction l as [| c l IH]; cbn; [tauto |].
  destruct (Ascii.eqb c Ascii.zero) eqn:E; cbn; [tauto |].
  intros [Hc | Hin]; [| contradiction].
  subst c. now rewrite Ascii.eqb_refl in E.
Qed.

Lemma c_str_app_nul (l : list ascii) :
  c_str (l ++ [Ascii.zero]) = c_str l.
Proof.
  induction l as [| c l IH]; cbn; [reflexivity |].
  destruct (Ascii.eqb c Ascii.zero); [reflexivity | now rewrite IH].
Qed.

Lemma c_str_prefix (l : list ascii) : exists rest, l = c_str l ++ rest.
Proof.
  induction l as [| c l [rest IH]]; cbn; [now exists [] |].
  destruct (Ascii.eqb c Ascii.zero); [now exists (c :: l) |].
  exists rest. cbn. now rewrite <- IH.
Qed.

Lemma c_str_length (l : list ascii) : (List.length (c_str l) <= List.length l)%nat.
Proof.
  induction l as [| c l IH]; cbn; [lia |].
  destruct (Ascii.eqb c Ascii.zero); cbn; lia.
Qed.

Lemma c_str_without_nul (l : list ascii) : ~ In Ascii.zero l -> c_str l = l.
Proof.
  induction l as [| c l IH]; cbn; intros Hn; [reflexivity |].
  destruct (Ascii.eqb c Ascii.zero) eqn:E.
  - apply Ascii.eqb_eq in E. subst c. exfalso. apply Hn. now left.
  - f_equal. apply IH. intros Hin. apply Hn. now right.
Qed.

Lemma c_str_app_with_nul (a b : list ascii) :
  In Ascii.zero a -> c_str (a ++ b) = c_str a.
Proof.
  induction a as [| c a IH]; cbn; intros Hin; [contradiction |].
  destruct (Ascii.eqb c Ascii.zero) eqn:E; [reflexivity |].
  f_equal. apply IH. destruct Hin as [Hc | Hin]; [| exact Hin].
  subst c. now rewrite Ascii.eqb_refl in E.
Qed.

(** [TS_ZCOPY] on an array that is not empty: the string read holds no
    NUL, is shorter than the array and is the start of it; it is the
    C string of the array when the array holds a NUL, and the array
    without its last character when it holds none. *)
Theorem TS_ZCOPY_terminated (field : list ascii) :
  field <> [] ->
  ~ In Ascii.zero (TS_ZCOPY field) /\
  (List.length (TS_ZCOPY field) < List.length field)%nat /\
  (exists rest, field = TS_ZCOPY field ++ rest) /\
  (In Ascii.zero field -> TS_ZCOPY field = c_str field) /\
  (~ In Ascii.zero field -> TS_ZCOPY field = removelast field).
Proof.
  intros Hne. unfold TS_ZCOPY. rewrite c_str_app_nul.
  pose proof (app_removelast_last Ascii.zero Hne) as Hsplit.
  assert (Hlen : List.length field = S (List.length (removelast field))).
  { rewrite Hsplit at 1. rewrite length_app. cbn. lia. }
  split; [apply c_str_no_nul |].
  split; [pose proof (c_str_length (removelast field)); lia |].
  split; [| split].
  - destruct (c_str_prefix (removelast field)) as [rest Hrest].
    exists (rest ++ [last field Ascii.zero]).
    rewrite app_assoc, <- Hrest. exact Hsplit.
  - intros Hin. rewrite Hsplit in Hin. apply in_app_or in Hin.
    destruct Hin as [Hin | Hin].
    + rewrite Hsplit at 2. symmetry. now apply c_str_app_with_nul.
    + destruct Hin as [Hl | []].
      rewrite Hsplit at 2. rewrite Hl. symmetry. apply c_str_app_nul.
  - intros Hn. apply c_str_without_nul. intros Hin. apply Hn.
    rewrite Hsplit. apply in_or_app. now left.
Qed.

End ZCopy.

(** An array of eight characters that the driver filled completely. *)
Lemma TS_ZCOPY_terminated_witness :
  list_ascii_of_string "ITEtechX" <> [] /\
  TS_ZCOPY (list_ascii_of_string "ITEtechX") = list_ascii_of_string "ITEtech".
Proof.
  assert (Hne : list_ascii_of_string "ITEtechX" <> []) by discriminate.
  split; [exact Hne |].
  destruct (TS_ZCOPY_terminated (list_ascii_of_string "ITEtechX") Hne)
    as (_ & _ & _ & _ & Hno).
  rewrite Hno; [reflexivity |].
  cbn. intros Hin. repeat (destruct Hin as [Hin | Hin]; [discriminate |]). exact Hin.
Defined.

(** ** Closing *)

Section Closing.
Context {P : Platform}.

Lemma opens_of_app (a b : list HostEvent) : opens_of (a ++ b) = opens_of a ++ opens_of b.
Proof. apply flat_map_app. Qed.

Lemma closes_of_app (a b : list HostEvent) :
  closes_of (a ++ b) = closes_of a ++ closes_of b.
Proof. apply flat_map_app. Qed.

Lemma queries_of_app (a b : list HostEvent) :
  queries_of (a ++ b) = queries_of a ++ queries_of b.
Proof. apply flat_map_app. Qed.

Lemma observe_device_events (tr : list Event) :
  opens_of (map Device tr) = [] /\
  closes_of (map Device tr) = [] /\
  queries_of (map Device tr) = [].
Proof. induction tr as [| e tr (Ho & Hc & Hq)]; cbn; repeat split; assumption. Qed.

(** [stopTransmission] under the null report: its commands and nothing
    else; only the transmitting flag can change. *)
Lemma stopTransmission_null_report (s : Guts.t) :
  let '(ok, s', tr) := Guts.stopTransmission s in
  null_report tr = map (Ioctl (Guts.fd s)) (stop_commands (Guts.fd s)) /\
  Guts.set_transmitting false s' = Guts.set_transmitting false s /\
  Guts.fd s' = Guts.fd s.
Proof.
  unfold Guts.stopTransmission, stop_commands.
  destruct (ioctl_failed (ioctl (Guts.fd s) IOCTL_ITE_MOD_STOPTRANSFER)); cbn;
    [repeat split |].
  destruct (ioctl_failed (ioctl (Guts.fd s) (IOCTL_ITE_MOD_ENABLETXMODE 0))); cbn;
    repeat split.
Qed.

(** What [Guts::close] leaves and what it does. *)
Lemma Guts_close_spec (g : Lifecycle.guts) :
  let s := Lifecycle.state g in
  Lifecycle.Guts_close g
  = (Lifecycle.mkGuts
       (Guts.mk (-1) false (Guts.bitrate s) (Guts.due_time s) (Guts.pkt_sent s)
          (Guts.all_write s) (Guts.fail_write s))
       (Lifecycle.info g),
     if 0 <=? Guts.fd s then
       (if Guts.transmitting s
        then map Device (map (Ioctl (Guts.fd s)) (stop_commands (Guts.fd s)))
        else []) ++ [SysClose (Guts.fd s)]
     else []).
Proof.
  cbv zeta. unfold Lifecycle.Guts_close.
  destruct (0 <=? Guts.fd (Lifecycle.state g)); [| reflexivity].
  destruct (Guts.transmitting (Lifecycle.state g)) eqn:Et.
  - pose proof (stopTransmission_null_report (Lifecycle.state g)) as Hs.
    destruct (Guts.stopTransmission (Lifecycle.state g)) as [[ok s'] tr].
    destruct Hs as (Hn & Hst & Hfd). rewrite Hn, Hfd. f_equal. f_equal.
    unfold Lifecycle.set_fd. cbn.
    apply (f_equal Guts.bitrate) in Hst as Hb.
    apply (f_equal Guts.due_time) in Hst as Hd.
    apply (f_equal Guts.pkt_sent) in Hst as Hp.
    apply (f_equal Guts.all_write) in Hst as Ha.
    apply (f_equal Guts.fail_write) in Hst as Hf.
    cbn in Hb, Hd, Hp, Ha, Hf. now rewrite Hb, Hd, Hp, Ha, Hf.
  - reflexivity.
Qed.

(** [close] always succeeds and leaves the object closed: descriptor
    -1, no transmission, the other members as they were.  It releases
    the descriptor when there is a valid one, and a second [close]
    does nothing at all. *)
Theorem close_idempotent (d : Lifecycle.t) :
  let s := Lifecycle.state (Lifecycle._guts d) in
  let '(ok1, d1, tr1) := Lifecycle.close d in
  let '(ok2, d2, tr2) := Lifecycle.close d1 in
  ok1 = true /\ ok2 = true /\
  d1 = Lifecycle.mk false
         (Lifecycle.mkGuts
            (Guts.mk (-1) false (Guts.bitrate s) (Guts.due_time s) (Guts.pkt_sent s)
               (Guts.all_write s) (Guts.fail_write s))
            (Lifecycle.info (Lifecycle._guts d))) /\
  closes_of tr1 = (if 0 <=? Guts.fd s then [Guts.fd s] else []) /\
  d2 = d1 /\ tr2 = [].
Proof.
  cbv zeta. unfold Lifecycle.close.
  rewrite (Guts_close_spec (Lifecycle._guts d)). cbv zeta.
  cbn [Lifecycle._guts]. rewrite Guts_close_spec. cbn.
  repeat split.
  destruct (0 <=? Guts.fd (Lifecycle.state (Lifecycle._guts d))); [| reflexivity].
  rewrite closes_of_app.
  destruct (Guts.transmitting (Lifecycle.state (Lifecycle._guts d))); [| reflexivity].
  destruct (observe_device_events
              (map (Ioctl (Guts.fd (Lifecycle.state (Lifecycle._guts d))))
                 (stop_commands (Guts.fd (Lifecycle.state (Lifecycle._guts d))))))
    as (_ & Hc & _).
  rewrite Hc. reflexivity.
Qed.

(** [close] during a transmission: the stop-transfer command, then the
    disable-mode command unless the first failed, then the descriptor
    is closed, whether these commands succeed or not; nothing is
    reported. *)
Theorem close_stops_transmission (d : Lifecycle.t) :
  let s := Lifecycle.state (Lifecycle._guts d) in
  0 <= Guts.fd s ->
  Guts.transmitting s = true ->
  snd (Lifecycle.close d)
  = map Device
      (if ioctl_failed (ioctl (Guts.fd s) IOCTL_ITE_MOD_STOPTRANSFER)
       then [Ioctl (Guts.fd s) IOCTL_ITE_MOD_STOPTRANSFER]
       else [Ioctl (Guts.fd s) IOCTL_ITE_MOD_STOPTRANSFER;
             Ioctl (Guts.fd s) (IOCTL_ITE_MOD_ENABLETXMODE 0)])
    ++ [SysClose (Guts.fd s)].
Proof.
  cbv zeta. intros Hfd Ht. unfold Lifecycle.close.
  rewrite Guts_close_spec. cbv zeta. cbn [snd].
  assert (E : (0 <=? Guts.fd (Lifecycle.state (Lifecycle._guts d))) = true)
    by (apply Z.leb_le; assumption).
  rewrite E, Ht. unfold stop_commands.
  destruct (ioctl_failed _); reflexivity.
Qed.

End Closing.

(** A transmitting session on a device that rejects stop-transfer. *)
Lemma close_stops_transmission_witness :
  0 <= Guts.fd paced_guts /\
  Guts.transmitting paced_guts = true /\
  snd (Lifecycle.close (P := stop_rejecting_platform)
         (Lifecycle.mk true
            (Lifecycle.mkGuts paced_guts
               (HiDesDeviceInfo_init (Host := two_modulators_host)))))
  = [Device (Ioctl 3 IOCTL_ITE_MOD_STOPTRANSFER); SysClose 3].
Proof.
  split; [discriminate | split; [reflexivity |]].
  rewrite (close_stops_transmission (P := stop_rejecting_platform)
             (Lifecycle.mk true
                (Lifecycle.mkGuts paced_guts
                   (HiDesDeviceInfo_init (Host := two_modulators_host)))));
    [reflexivity | discriminate | reflexivity].
Defined.

(** ** Opening *)

Section Opening.
Context {P : Platform} {H : Host}.

(** The three queries are all made; the status is their conjunction;
    the index, the name and the path are not touched. *)
Lemma identify_spec (fd : Z) (x : HiDesDeviceInfo.t) :
  let '(status, x', evs) := Lifecycle.identify fd x in
  status = query_ok fd IOCTL_ITE_MOD_GETCHIPTYPE
           && query_ok fd IOCTL_ITE_MOD_GETDEVICETYPE
           && query_ok fd IOCTL_ITE_MOD_GETDRIVERINFO /\
  queries_of evs = identify_queries /\
  opens_of evs = [] /\
  closes_of evs = [] /\
  HiDesDeviceInfo.index x' = HiDesDeviceInfo.index x /\
  HiDesDeviceInfo.name x' = HiDesDeviceInfo.name x /\
  HiDesDeviceInfo.path x' = HiDesDeviceInfo.path x /\
  (query_ok fd IOCTL_ITE_MOD_GETCHIPTYPE = true ->
   HiDesDeviceInfo.chip_type x'
   = wrap16 (Answer.chipType (snd (query fd IOCTL_ITE_MOD_GETCHIPTYPE)))).
Proof.
  unfold Lifecycle.identify, query_ok.
  destruct (query fd IOCTL_ITE_MOD_GETCHIPTYPE) as [r1 a1].
  destruct (query fd IOCTL_ITE_MOD_GETDEVICETYPE) as [r2 a2].
  destruct (query fd IOCTL_ITE_MOD_GETDRIVERINFO) as [r3 a3].
  cbn [fst snd].
  destruct (ioctl_failed r1), (ioctl_failed r2), (ioctl_failed r3); cbn;
    repeat split; intros; try reflexivity; discriminate.
Qed.

(** [Guts::open] in its three cases: the file does not open, a query
    fails, everything succeeds. *)
Lemma Guts_open_spec (g : Lifecycle.guts) (index : Z) (name : string) :
  let fd := fst (sys_open name) in
  let '(ok, g', tr) := Lifecycle.Guts_open g index name in
  ok = (0 <=? fd)
       && (query_ok fd IOCTL_ITE_MOD_GETCHIPTYPE
           && query_ok fd IOCTL_ITE_MOD_GETDEVICETYPE
           && query_ok fd IOCTL_ITE_MOD_GETDRIVERINFO) /\
  opens_of tr = [name] /\
  queries_of tr = (if 0 <=? fd then identify_queries else []) /\
  closes_of tr = (if (0 <=? fd) && negb ok then [fd] else []) /\
  Guts.fd (Lifecycle.state g') = (if (0 <=? fd) && negb ok then -1 else fd) /\
  Guts.transmitting (Lifecycle.state g')
  = (if (0 <=? fd) && negb ok then false
     else Guts.transmitting (Lifecycle.state g)) /\
  HiDesDeviceInfo.index (Lifecycle.info g') = index /\
  HiDesDeviceInfo.name (Lifecycle.info g') = BaseName name /\
  HiDesDeviceInfo.path (Lifecycle.info g') = name.
Proof.
  cbv zeta. unfold Lifecycle.Guts_open.
  destruct (sys_open name) as [fd err]. cbn [fst].
  destruct (fd <? 0) eqn:Efd.
  - apply Z.ltb_lt in Efd.
    assert (E : (0 <=? fd) = false) by (apply Z.leb_gt; lia).
    rewrite E. cbn. repeat split.
  - apply Z.ltb_ge in Efd.
    assert (E : (0 <=? fd) = true) by (apply Z.leb_le; lia).
    rewrite E. cbn [andb].
    pose proof (identify_spec fd
                  (Lifecycle.set_index_name_path index (BaseName name) name
                     (HiDesDeviceInfo_clear (Lifecycle.info g)))) as Hid.
    destruct (Lifecycle.identify fd _) as [[status x'] evs].
    destruct Hid as (Hst & Hq & Ho & Hc & Hi & Hn & Hp & _).
    rewrite <- Hst. destruct status; cbn [negb].
    + cbn [Lifecycle.state Lifecycle.info Lifecycle.set_fd Guts.fd Guts.transmitting].
      rewrite !opens_of_app, !queries_of_app, !closes_of_app, Ho, Hq, Hc, Hi, Hn, Hp.
      cbn. repeat split.
    + rewrite Guts_close_spec. cbv zeta.
      cbn [Lifecycle.state Lifecycle.info Lifecycle.set_fd Guts.fd Guts.transmitting].
      rewrite E.
      rewrite !opens_of_app, !queries_of_app, !closes_of_app, Ho, Hq, Hc, Hi, Hn, Hp.
      destruct (Guts.transmitting (Lifecycle.state g)).
      * destruct (observe_device_events (map (Ioctl fd) (stop_commands fd)))
          as (Ho' & Hc' & Hq').
        rewrite Ho', Hc', Hq'. cbn. repeat split.
      * cbn. repeat split.
Qed.


(** [open] on an object that is already open, or with an index that
    is not the place of a device name, fails without opening
    anything and leaves the object as it was. *)
Theorem open_refused_without_opening (d : Lifecycle.t) (index : Z) (name : string) :
  (Lifecycle._is_open d = true ->
   fst (Lifecycle.open_by_index d index) = (false, d) /\
   opens_of (snd (Lifecycle.open_by_index d index)) = [] /\
   fst (Lifecycle.open_by_name d name) = (false, d) /\
   opens_of (snd (Lifecycle.open_by_name d name)) = []) /\
  (index < 0 \/ Z.of_nat (List.length Lifecycle.GetAllDeviceNames) <= index ->
   fst (Lifecycle.open_by_index d index) = (false, d) /\
   opens_of (snd (Lifecycle.open_by_index d index)) = []).
Proof.
  split.
  - intros Hopen. unfold Lifecycle.open_by_index, Lifecycle.open_by_name.
    rewrite Hopen. cbn. repeat split.
  - intros Hidx. unfold Lifecycle.open_by_index.
    destruct (Lifecycle._is_open d); [cbn; repeat split |].
    assert (E : (index <? 0) || (Z.of_nat (List.length Lifecycle.GetAllDeviceNames) <=? index)
                = true).
    { apply orb_true_iff. destruct Hidx as [Hn | Hl];
        [left; now apply Z.ltb_lt | right; now apply Z.leb_le]. }
    rewrite E. cbn. repeat split.
Qed.

(** [open] by index on a closed object opens the device file whose
    name has that place among the device names, records the index and
    that name as the path, and the object is open exactly when the
    call succeeds. *)
Theorem open_by_index_selects (d : Lifecycle.t) (index : Z) :
  Lifecycle._is_open d = false ->
  0 <= index < Z.of_nat (List.length Lifecycle.GetAllDeviceNames) ->
  let name := nth (Z.to_nat index) Lifecycle.GetAllDeviceNames "" in
  let '(ok, d', tr) := Lifecycle.open_by_index d index in
  opens_of tr = [name] /\
  In name Lifecycle.GetAllDeviceNames /\
  Lifecycle._is_open d' = ok /\
  HiDesDeviceInfo.index (Lifecycle.info (Lifecycle._guts d')) = index /\
  HiDesDeviceInfo.path (Lifecycle.info (Lifecycle._guts d')) = name.
Proof.
  intros Hclosed Hidx. cbv zeta. unfold Lifecycle.open_by_index. rewrite Hclosed.
  assert (E : (index <? 0) || (Z.of_nat (List.length Lifecycle.GetAllDeviceNames) <=? index)
              = false).
  { apply orb_false_iff. split; [apply Z.ltb_ge | apply Z.leb_gt]; lia. }
  rewrite E.
  pose proof (Guts_open_spec (Lifecycle._guts d) index
                (nth (Z.to_nat index) Lifecycle.GetAllDeviceNames "")) as Ho.
  cbv zeta in Ho.
  destruct (Lifecycle.Guts_open _ _ _) as [[ok g'] tr].
  destruct Ho as (_ & Hop & _ & _ & _ & _ & Hi & _ & Hp).
  cbn [Lifecycle._is_open Lifecycle._guts].
  repeat split; try assumption.
  apply nth_In. lia.
Qed.

(** After [open] by name on a closed object, [getInfo] succeeds
    exactly when the [open] did, and then gives the name as the path,
    its base name as the name and -1 as the index; otherwise it leaves
    the caller's object alone. *)
Theorem getInfo_after_open (d : Lifecycle.t) (name : string) (out : HiDesDeviceInfo.t) :
  Lifecycle._is_open d = false ->
  let '(ok, d', _) := Lifecycle.open_by_name d name in
  let '(ok', i, _) := Lifecycle.getInfo d' out in
  ok' = ok /\
  (if ok
   then HiDesDeviceInfo.path i = name /\
        HiDesDeviceInfo.name i = BaseName name /\
        HiDesDeviceInfo.index i = -1
   else i = out).
Proof.
  intros Hclosed. unfold Lifecycle.open_by_name. rewrite Hclosed.
  pose proof (Guts_open_spec (Lifecycle._guts d) (-1) name) as Ho.
  cbv zeta in Ho.
  destruct (Lifecycle.Guts_open _ _ _) as [[ok g'] tr].
  destruct Ho as (_ & _ & _ & _ & _ & _ & Hi & Hn & Hp).
  unfold Lifecycle.getInfo. cbn [Lifecycle._is_open Lifecycle._guts].
  destruct ok; cbn; repeat split; assumption.
Qed.

End Opening.

(** The first modulator of the host, on a closed object. *)
Lemma open_by_index_selects_witness :
  Lifecycle._is_open closed_device = false /\
  0 <= 0 < Z.of_nat (List.length (Lifecycle.GetAllDeviceNames (H := two_modulators_host))) /\
  let '(ok, d', tr) :=
    Lifecycle.open_by_index (P := accepting_platform) (H := two_modulators_host)
      closed_device 0 in
  ok = true /\
  opens_of tr = ["/dev/usb-it950x0"] /\
  Lifecycle._is_open d' = true.
Proof.
  split; [reflexivity | split; [split; [discriminate | reflexivity] |]].
  pose proof (open_by_index_selects (P := accepting_platform) (H := two_modulators_host)
                closed_device 0 eq_refl
                (conj (Z.le_refl 0) (eq_refl : (0 ?= 2) = Lt))) as Hs.
  cbv zeta in Hs.
  destruct (Lifecycle.open_by_index closed_device 0) as [[ok d'] tr] eqn:E.
  destruct Hs as (Hop & _ & Hopen & _).
  assert (Hok : ok = true) by (vm_compute in E; inversion E; reflexivity).
  split; [exact Hok | split; [exact Hop | rewrite Hopen; exact Hok]].
Defined.

(** Opening the first modulator by name. *)
Lemma getInfo_after_open_witness :
  Lifecycle._is_open closed_device = false /\
  let '(ok, d', _) :=
    Lifecycle.open_by_name (P := accepting_platform) (H := two_modulators_host)
      closed_device "/dev/usb-it950x0" in
  ok = true /\
  HiDesDeviceInfo.path
    (snd (fst (Lifecycle.getInfo d' (HiDesDeviceInfo_init (Host := two_modulators_host)))))
  = "/dev/usb-it950x0".
Proof.
  split; [reflexivity |].
  pose proof (getInfo_after_open (P := accepting_platform) (H := two_modulators_host)
                closed_device "/dev/usb-it950x0"
                (HiDesDeviceInfo_init (Host := two_modulators_host)) eq_refl) as Hs.
  destruct (Lifecycle.open_by_name closed_device "/dev/usb-it950x0")
    as [[ok d'] tr] eqn:E.
  destruct (Lifecycle.getInfo d' HiDesDeviceInfo_init) as [[ok' i] tr'] eqn:E'.
  assert (Hok : ok = true) by (vm_compute in E; inversion E; reflexivity).
  subst ok. destruct Hs as (_ & Hp & _). cbn [fst snd]. split; [reflexivity | exact Hp].
Defined.

(** ** The handle invariant and the list of devices *)

Section HandleInvariant.
Context {P : Platform} {H : Host}.

(** The descriptor is valid exactly when the object is open, and a
    transmission is in progress only on an open object: [open] (by
    index or by name) and [close] keep this, whatever the host and
    the device answer. *)
Theorem open_close_keep_handle (d : Lifecycle.t) (index : Z) (name : string) :
  handle_ok (Lifecycle._is_open d) (Lifecycle.state (Lifecycle._guts d)) ->
  let after (r : bool * Lifecycle.t * list HostEvent) :=
    handle_ok (Lifecycle._is_open (snd (fst r)))
      (Lifecycle.state (Lifecycle._guts (snd (fst r)))) in
  after (Lifecycle.open_by_index d index) /\
  after (Lifecycle.open_by_name d name) /\
  after (Lifecycle.close d).
Proof.
  intros Hinv. cbv zeta.
  assert (Hopen : forall i n,
            Lifecycle._is_open d = false ->
            let '(ok, g', _) := Lifecycle.Guts_open (Lifecycle._guts d) i n in
            handle_ok ok (Lifecycle.state g')).
  { intros i n Hclosed.
    pose proof (Guts_open_spec (Lifecycle._guts d) i n) as Ho. cbv zeta in Ho.
    destruct (Lifecycle.Guts_open _ _ _) as [[ok g'] tr].
    destruct Ho as (Hok & _ & _ & _ & Hfd & Htx & _).
    destruct Hinv as [Hfd0 Htx0]. rewrite Hclosed in Hfd0, Htx0.
    unfold handle_ok. rewrite Hfd, Htx.
    destruct (0 <=? fst (sys_open n)) eqn:E; cbn [andb] in *.
    - apply Z.leb_le in E. destruct ok; cbn [negb].
      + split; [tauto | reflexivity].
      + split; [split; [discriminate | lia] | discriminate].
    - apply Z.leb_gt in E. subst ok. split; [split; [discriminate | lia] | exact Htx0]. }
  split; [| split].
  - unfold Lifecycle.open_by_index.
    destruct (Lifecycle._is_open d) eqn:Eo; [cbn [fst snd]; rewrite Eo; exact Hinv |].
    destruct (_ || _); [cbn [fst snd]; rewrite Eo; exact Hinv |].
    specialize (Hopen index
                  (nth (Z.to_nat index) Lifecycle.GetAllDeviceNames "") eq_refl).
    destruct (Lifecycle.Guts_open _ _ _) as [[ok g'] tr]. exact Hopen.
  - unfold Lifecycle.open_by_name.
    destruct (Lifecycle._is_open d) eqn:Eo; [cbn [fst snd]; rewrite Eo; exact Hinv |].
    specialize (Hopen (-1) name eq_refl).
    destruct (Lifecycle.Guts_open _ _ _) as [[ok g'] tr]. exact Hopen.
  - unfold Lifecycle.close. rewrite Guts_close_spec. cbv zeta.
    cbn [fst snd Lifecycle._is_open Lifecycle._guts Lifecycle.state].
    unfold handle_ok. cbn [Guts.fd Guts.transmitting].
    split; [split; [discriminate | lia] | discriminate].
Qed.

Lemma indexes_from_length (n : nat) (index : Z) :
  List.length (indexes_from index n) = n.
Proof. revert index. induction n as [| n IH]; intros index; cbn; [| rewrite IH]; reflexivity. Qed.

(** One device after the other: the path and the index of each entry,
    the files opened and the descriptors closed. *)
Lemma GetAllDevices_loop_spec (names : list string) :
  forall (index : Z),
    let '(devices, evs) := Lifecycle.GetAllDevices_loop index names in
    map HiDesDeviceInfo.path devices = names /\
    map HiDesDeviceInfo.index devices = indexes_from index (List.length names) /\
    opens_of evs = names /\
    closes_of evs = filter (fun fd => 0 <=? fd) (map (fun n => fst (sys_open n)) names).
Proof.
  induction names as [| name names IH]; intros index.
  - cbn. repeat split.
  - cbn [Lifecycle.GetAllDevices_loop].
    pose proof (Guts_open_spec Lifecycle.Guts_init index name) as Ho. cbv zeta in Ho.
    destruct (Lifecycle.Guts_open Lifecycle.Guts_init index name) as [[ok g'] ev1].
    destruct Ho as (Hok & Hop & _ & Hcl & Hfd & Htx & Hi & _ & Hp).
    rewrite (Guts_close_spec g'). cbv zeta.
    rewrite Guts_close_spec. cbv zeta. cbn [Lifecycle.state Lifecycle.info Guts.fd].
    specialize (IH (index + 1)).
    destruct (Lifecycle.GetAllDevices_loop (index + 1) names) as [devices evs].
    destruct IH as (IHp & IHi & IHo & IHc).
    cbn [map List.length indexes_from filter].
    rewrite Hp, Hi, IHp, IHi.
    rewrite !opens_of_app, !closes_of_app, Hop, Hcl, IHo, IHc.
    assert (Htx' : Guts.transmitting (Lifecycle.state g') = false).
    { rewrite Htx. destruct ((0 <=? fst (sys_open name)) && negb ok); reflexivity. }
    rewrite Htx', Hfd.
    change (0 <=? -1) with false. cbn [app].
    split; [reflexivity |]. split; [reflexivity |].
    split.
    { destruct ((0 <=? fst (sys_open name)) && negb ok) eqn:E.
      - change (0 <=? -1) with false. reflexivity.
      - destruct (0 <=? fst (sys_open name)); reflexivity. }
    destruct (0 <=? fst (sys_open name)) eqn:E; cbn [andb].
    + destruct ok; cbn [negb].
      * rewrite E. reflexivity.
      * change (0 <=? -1) with false. reflexivity.
    + rewrite E. reflexivity.
Qed.

(** [GetAllDevices] always succeeds and returns one entry for each
    device name, in order, with its place as the index and the name
    as the path, whether the device could be opened or not.  It opens
    each device file once and closes every descriptor it obtained. *)
Theorem GetAllDevices_lists_every_name :
  let '(ok, devices, evs) := Lifecycle.GetAllDevices in
  ok = true /\
  List.length devices = List.length Lifecycle.GetAllDeviceNames /\
  map HiDesDeviceInfo.path devices = Lifecycle.GetAllDeviceNames /\
  map HiDesDeviceInfo.index devices
  = indexes_from 0 (List.length Lifecycle.GetAllDeviceNames) /\
  opens_of evs = Lifecycle.GetAllDeviceNames /\
  closes_of evs
  = filter (fun fd => 0 <=? fd)
      (map (fun n => fst (sys_open n)) Lifecycle.GetAllDeviceNames).
Proof.
  unfold Lifecycle.GetAllDevices.
  pose proof (GetAllDevices_loop_spec Lifecycle.GetAllDeviceNames 0) as Hs.
  destruct (Lifecycle.GetAllDevices_loop 0 Lifecycle.GetAllDeviceNames) as [devices evs].
  destruct Hs as (Hp & Hi & Ho & Hc).
  split; [reflexivity |]. split; [| repeat split; assumption].
  rewrite <- (length_map HiDesDeviceInfo.path devices), Hp. reflexivity.
Qed.

End HandleInvariant.

(** A closed object, as it is built. *)
Lemma open_close_keep_handle_witness :
  handle_ok (Lifecycle._is_open closed_device)
    (Lifecycle.state (Lifecycle._guts closed_device)) /\
  handle_ok
    (Lifecycle._is_open
       (snd (fst (Lifecycle.open_by_name (P := accepting_platform)
                    (H := two_modulators_host) closed_device "/dev/usb-it950x0"))))
    (Lifecycle.state
       (Lifecycle._guts
          (snd (fst (Lifecycle.open_by_name (P := accepting_platform)
                       (H := two_modulators_host) closed_device "/dev/usb-it950x0"))))).
Proof.
  assert (Hinv : handle_ok (Lifecycle._is_open closed_device)
                   (Lifecycle.state (Lifecycle._guts closed_device))).
  { split; [split; [discriminate | intros Hfd; exfalso; apply Hfd; reflexivity]
           | discriminate]. }
  split; [exact Hinv |].
  destruct (open_close_keep_handle (P := accepting_platform) (H := two_modulators_host)
              closed_device 0 "/dev/usb-it950x0" Hinv) as (_ & Hn & _).
  exact Hn.
Defined.

(** ** The commands of [tune] *)

Section TuneCommands.
Context {P : Platform}.

Lemma ioctls_of_app (a b : list Event) : ioctls_of (a ++ b) = ioctls_of a ++ ioctls_of b.
Proof. apply flat_map_app. Qed.


(** [tune] changes the bit rate at most. *)
Lemma tune_frame (d : HiDesDevice.t) (params : TunerParametersDVBT) :
  let d' := snd (fst (HiDesDevice.tune d params)) in
  HiDesDevice._is_open d' = HiDesDevice._is_open d /\
  Guts.fd (HiDesDevice._guts d') = Guts.fd (HiDesDevice._guts d) /\
  Guts.transmitting (HiDesDevice._guts d') = Guts.transmitting (HiDesDevice._guts d).
Proof.
  cbv zeta. unfold HiDesDevice.tune, HiDesDevice.not_open. cbv zeta.
  destruct (negb (HiDesDevice._is_open d)); [repeat split |].
  destruct (_ =? 0); [repeat split |].
  destruct (HiDesDevice.switch_modulation _); [| repeat split].
  destruct (HiDesDevice.switch_fec_hp _); [| repeat split].
  destruct (HiDesDevice.switch_guard_interval _); [| repeat split].
  destruct (HiDesDevice.switch_transmission_mode _); [| repeat split].
  destruct (HiDesDevice.switch_inversion _) as [[setInv isInv] |]; [| repeat split].
  destruct (ioctl_failed _); [repeat split |].
  destruct (ioctl_failed _); [repeat split |].
  destruct (setInv && ioctl_failed _); repeat split.
Qed.

(** Every operation on an object that is not open fails after the one
    report "HiDes device not open": no command, no write, no change. *)
Theorem closed_object_refuses (d : HiDesDevice.t) (params : TunerParametersDVBT)
        (now n : Z) (script : list WriteResult) :
  HiDesDevice._is_open d = false ->
  let refused := (false, d, [ReportError "HiDes device not open" []]) in
  HiDesDevice.tune d params = refused /\
  HiDesDevice.startTransmission d = refused /\
  HiDesDevice.stopTransmission d = refused /\
  HiDesDevice.send d now n script = Some refused.
Proof.
  intros Hc. cbv zeta.
  unfold HiDesDevice.tune, HiDesDevice.startTransmission, HiDesDevice.stopTransmission,
    HiDesDevice.send, HiDesDevice.not_open.
  rewrite Hc. cbn. repeat split.
Qed.

(** [tune], [startTransmission], [stopTransmission] and [send] keep
    the handle invariant: none of them changes the descriptor or
    whether the object is open, and a transmission starts only on an
    open object. *)
Theorem transmission_keeps_handle (d : HiDesDevice.t) (params : TunerParametersDVBT)
        (now n : Z) (script : list WriteResult) :
  handle_ok (HiDesDevice._is_open d) (HiDesDevice._guts d) ->
  let after (r : HiDesDevice.result) :=
    HiDesDevice._is_open (snd (fst r)) = HiDesDevice._is_open d /\
    Guts.fd (HiDesDevice._guts (snd (fst r))) = Guts.fd (HiDesDevice._guts d) /\
    handle_ok (HiDesDevice._is_open (snd (fst r))) (HiDesDevice._guts (snd (fst r))) in
  after (HiDesDevice.tune d params) /\
  after (HiDesDevice.startTransmission d) /\
  after (HiDesDevice.stopTransmission d) /\
  (forall r, HiDesDevice.send d now n script = Some r -> after r).
Proof.
  intros Hinv. cbv zeta.
  assert (Hsame : forall d',
            HiDesDevice._is_open d' = HiDesDevice._is_open d ->
            Guts.fd (HiDesDevice._guts d') = Guts.fd (HiDesDevice._guts d) ->
            (Guts.transmitting (HiDesDevice._guts d') = true ->
             HiDesDevice._is_open d = true) ->
            HiDesDevice._is_open d' = HiDesDevice._is_open d /\
            Guts.fd (HiDesDevice._guts d') = Guts.fd (HiDesDevice._guts d) /\
            handle_ok (HiDesDevice._is_open d') (HiDesDevice._guts d')).
  { intros d' Ho Hf Ht. split; [exact Ho | split; [exact Hf |]].
    unfold handle_ok. rewrite Ho, Hf. split; [apply Hinv | exact Ht]. }
  assert (Hd : HiDesDevice._is_open d = HiDesDevice._is_open d /\
               Guts.fd (HiDesDevice._guts d) = Guts.fd (HiDesDevice._guts d) /\
               handle_ok (HiDesDevice._is_open d) (HiDesDevice._guts d))
    by (repeat split; apply Hinv).
  destruct (HiDesDevice._is_open d) eqn:Eo.
  2: { unfold HiDesDevice.tune, HiDesDevice.startTransmission,
         HiDesDevice.stopTransmission, HiDesDevice.send, HiDesDevice.not_open.
       rewrite Eo. cbn [negb fst snd]. rewrite ?Eo.
       split; [exact Hd | split; [exact Hd | split; [exact Hd |]]].
       intros r0 Hr. inversion Hr; subst r0. cbn [fst snd]. rewrite ?Eo. exact Hd. }
  split; [| split; [| split]].
  - destruct (tune_frame d params) as (Ho & Hf & Ht).
    apply Hsame; [rewrite Ho; exact Eo | exact Hf | reflexivity].
  - unfold HiDesDevice.startTransmission, Guts.startTransmission. rewrite Eo. cbn [negb].
    destruct (ioctl_failed _);
      [unfold HiDesDevice.with_guts; cbn [fst snd]; apply Hsame; cbn; auto |].
    destruct (ioctl_failed _);
      unfold HiDesDevice.with_guts; cbn [fst snd]; apply Hsame; cbn; auto.
  - unfold HiDesDevice.stopTransmission, Guts.stopTransmission. rewrite Eo. cbn [negb].
    destruct (ioctl_failed _);
      [unfold HiDesDevice.with_guts; cbn [fst snd]; apply Hsame; cbn; auto |].
    destruct (ioctl_failed _);
      unfold HiDesDevice.with_guts; cbn [fst snd]; apply Hsame; cbn; auto.
  - intros r Hr. unfold HiDesDevice.send in Hr. rewrite Eo in Hr. cbn [negb] in Hr.
    destruct (Guts.send (HiDesDevice._guts d) now n script) as [[[ok g'] tr] |] eqn:Es;
      [| discriminate].
    cbn in Hr. inversion Hr; subst r. cbn [fst snd].
    apply send_cases in Es.
    destruct Es as [(_ & _ & -> & _) | (_ & tr' & Hrun & _)].
    + apply Hsame; cbn; auto.
    + apply send_loop_frame in Hrun. destruct Hrun as (Hfd & _ & _).
      destruct (resync_frame (HiDesDevice._guts d) now) as (Hfd' & _).
      apply Hsame; cbn; [assumption | congruence | reflexivity].
Qed.

End TuneCommands.


(** An object that was never opened. *)
Lemma closed_object_refuses_witness :
  HiDesDevice._is_open (HiDesDevice.mk false (Guts.mk (-1) false 0 0 0 0 0)) = false /\
  HiDesDevice.send (P := accepting_platform)
    (HiDesDevice.mk false (Guts.mk (-1) false 0 0 0 0 0)) 0 10 [write_ok]
  = Some (false, HiDesDevice.mk false (Guts.mk (-1) false 0 0 0 0 0),
          [ReportError "HiDes device not open" []]).
Proof.
  split; [reflexivity |].
  destruct (closed_object_refuses (P := accepting_platform)
              (HiDesDevice.mk false (Guts.mk (-1) false 0 0 0 0 0))
              (mkTunerParametersDVBT 474000000 8000000 QAM_64 FEC_2_3 GUARD_1_32
                 TM_8K SPINV_AUTO) 0 10 [write_ok] eq_refl) as (_ & _ & _ & Hs).
  exact Hs.
Defined.

(** An open, idle session that starts transmitting. *)
Lemma transmission_keeps_handle_witness :
  handle_ok (HiDesDevice._is_open (HiDesDevice.mk true idle_guts))
    (HiDesDevice._guts (HiDesDevice.mk true idle_guts)) /\
  handle_ok true
    (HiDesDevice._guts
       (snd (fst (HiDesDevice.startTransmission (P := accepting_platform)
                    (HiDesDevice.mk true idle_guts))))).
Proof.
  assert (Hinv : handle_ok (HiDesDevice._is_open (HiDesDevice.mk true idle_guts))
                   (HiDesDevice._guts (HiDesDevice.mk true idle_guts))).
  { split; [split; [discriminate | reflexivity] | reflexivity]. }
  split; [exact Hinv |].
  destruct (transmission_keeps_handle (P := accepting_platform)
              (HiDesDevice.mk true idle_guts)
              (mkTunerParametersDVBT 474000000 8000000 QAM_64 FEC_2_3 GUARD_1_32
                 TM_8K SPINV_AUTO) 0 0 [] Hinv) as (_ & (_ & _ & Hs) & _).
  exact Hs.
Defined.

(** ** The gain services *)

Section Gain.
Context {P : Platform} {H : Host}.

(** What the gain services hand back.  [setGain] returns the value
    the driver applied, and the caller's own value when it fails;
    [getGain] and [getGainRange] return the driver's values, and zero
    when they fail.  [getGainRange] refuses a bandwidth whose value in
    kHz is zero before it issues its command, and none of the three
    issues a command on an object that is not open. *)
Theorem gain_services_outputs (d : Lifecycle.t) (gain0 min0 max0 frequency : Z)
        (bw : BandWidth) :
  let fd := Guts.fd (Lifecycle.state (Lifecycle._guts d)) in
  let kHz := gain_bandwidth_field (BandWidthValueHz bw / 1000) in
  let '(ok1, g1, tr1) := Lifecycle.setGain d gain0 in
  let '(ok2, g2, tr2) := Lifecycle.getGain d gain0 in
  let '(ok3, r3, tr3) := Lifecycle.getGainRange d min0 max0 frequency bw in
  g1 = (if ok1
        then Answer.GainValue (snd (query fd (IOCTL_ITE_MOD_ADJUSTOUTPUTGAIN gain0)))
        else gain0) /\
  g2 = (if ok2 then Answer.gain (snd (query fd IOCTL_ITE_MOD_GETOUTPUTGAIN)) else 0) /\
  r3 = (if ok3
        then let a := snd (query fd (IOCTL_ITE_MOD_GETGAINRANGE
                                       (wrap32 (frequency / 1000)) kHz)) in
             (Answer.minGain a, Answer.maxGain a)
        else (0, 0)) /\
  queries_of tr1
  = (if Lifecycle._is_open d then [IOCTL_ITE_MOD_ADJUSTOUTPUTGAIN gain0] else []) /\
  queries_of tr2 = (if Lifecycle._is_open d then [IOCTL_ITE_MOD_GETOUTPUTGAIN] else []) /\
  queries_of tr3
  = (if Lifecycle._is_open d && negb (kHz =? 0)
     then [IOCTL_ITE_MOD_GETGAINRANGE (wrap32 (frequency / 1000)) kHz] else []) /\
  (if Lifecycle._is_open d && negb (kHz =? 0) then True else ok3 = false).
Proof.
  cbv zeta. unfold Lifecycle.setGain, Lifecycle.getGain, Lifecycle.getGainRange. cbv zeta.
  destruct (Lifecycle._is_open d); cbn [negb andb]; [| cbn; repeat split].
  destruct (query _ (IOCTL_ITE_MOD_ADJUSTOUTPUTGAIN gain0)) as [ra aa].
  destruct (query _ IOCTL_ITE_MOD_GETOUTPUTGAIN) as [rg ag].
  destruct (gain_bandwidth_field (BandWidthValueHz bw / 1000) =? 0) eqn:Ek; cbn [negb].
  - destruct (ioctl_failed ra), (ioctl_failed rg); cbn; repeat split.
  - destruct (query _ (IOCTL_ITE_MOD_GETGAINRANGE _ _)) as [rr ar].
    destruct (ioctl_failed ra), (ioctl_failed rg), (ioctl_failed rr); cbn;
      repeat split.
Qed.

End Gain.

(** An object that is open, and an index past the two modulators. *)
Lemma open_refused_without_opening_witness :
  Lifecycle._is_open (Lifecycle.mk true (Lifecycle._guts closed_device)) = true /\
  Z.of_nat (List.length (Lifecycle.GetAllDeviceNames (H := two_modulators_host))) <= 2 /\
  fst (Lifecycle.open_by_name (P := accepting_platform) (H := two_modulators_host)
         (Lifecycle.mk true (Lifecycle._guts closed_device)) "/dev/usb-it950x0")
  = (false, Lifecycle.mk true (Lifecycle._guts closed_device)) /\
  fst (Lifecycle.open_by_index (P := accepting_platform) (H := two_modulators_host)
         closed_device 2)
  = (false, closed_device).
Proof.
  split; [reflexivity | split; [discriminate |]].
  split.
  - destruct (open_refused_without_opening (P := accepting_platform)
                (H := two_modulators_host)
                (Lifecycle.mk true (Lifecycle._guts closed_device)) 0 "/dev/usb-it950x0")
      as (Hopen & _).
    destruct (Hopen eq_refl) as (_ & _ & Hn & _). exact Hn.
  - destruct (open_refused_without_opening (P := accepting_platform)
                (H := two_modulators_host) closed_device 2 "/dev/usb-it950x0")
      as (_ & Hidx).
    destruct Hidx as (Hi & _); [right; discriminate | exact Hi].
Defined.

(** ** The due-time is never in the past *)

Section DueTime.
Context {P : Platform}.

(** With a positive bit rate the loop never moves the due-time back. *)
Lemma send_loop_due_time_mono (script : list WriteResult) :
  forall (g : Guts.t) (data remain rc : Z) (ok : bool) (g' : Guts.t) (tr : list Event),
    0 < Guts.bitrate g ->
    Guts.send_loop script g data remain rc = Some (ok, g', tr) ->
    Guts.due_time g <= Guts.due_time g'.
Proof.
  induction script as [| res script IH]; intros g data remain rc ok g' tr Hb Hrun.
  - cbn [Guts.send_loop] in Hrun. destruct (0 <? remain); [discriminate |].
    inversion Hrun; subst. lia.
  - destruct (Z_lt_le_dec 0 remain) as [Hpos | Hle].
    + destruct (send_loop_turn res script g data remain rc Hpos)
        as [(_ & E) | [(_ & E) | [(_ & _ & E) | (_ & _ & E)]]];
        rewrite E in Hrun.
      * apply emit_Some in Hrun. destruct Hrun as (tr' & Hrun & _).
        apply IH in Hrun; [| exact Hb].
        cbn [after_accepted Guts.due_time] in Hrun.
        assert (Eb : (Guts.bitrate g =? 0) = false) by (apply Z.eqb_neq; lia).
        rewrite Eb in Hrun.
        assert (0 <= Guts.due_time_advance (Z.min remain ITE_MAX_SEND_BYTES)
                       (Guts.bitrate g)).
        { unfold Guts.due_time_advance. apply Z.div_pos; [| exact Hb].
          apply wrap64_range. }
        lia.
      * apply emit_Some in Hrun. destruct Hrun as (tr' & Hrun & _).
        apply IH in Hrun; [exact Hrun | exact Hb].
      * apply emit_Some in Hrun. destruct Hrun as (tr' & Hrun & _).
        apply IH in Hrun; [exact Hrun | exact Hb].
      * inversion Hrun; subst. cbn. lia.
    + rewrite send_loop_nothing in Hrun by assumption.
      inversion Hrun; subst. lia.
Qed.

(** A paced [send] never leaves the due-time in the past of the clock
    reading it made: the baseline check puts it at that reading or
    later, making the check a second time at the same reading changes
    nothing and logs nothing, and the loop only moves it forward. *)
Theorem send_due_time_not_past (g : Guts.t) (now n : Z) (script : list WriteResult)
        (ok : bool) (g' : Guts.t) (tr : list Event) :
  Guts.transmitting g = true ->
  0 < Guts.bitrate g ->
  Guts.send g now n script = Some (ok, g', tr) ->
  let g1 := fst (Guts.resync g now) in
  now <= Guts.due_time g1 /\
  Guts.resync g1 now = (g1, []) /\
  Guts.due_time g1 <= Guts.due_time g'.
Proof.
  intros Ht Hb Hrun. cbv zeta.
  assert (Eb : (Guts.bitrate g =? 0) = false) by (apply Z.eqb_neq; lia).
  split; [| split].
  - unfold Guts.resync. rewrite Eb. cbn [negb].
    destruct (Guts.pkt_sent g =? 0); [cbn; lia |].
    destruct (Guts.due_time g <? now) eqn:El; cbn; [lia |].
    apply Z.ltb_ge in El. exact El.
  - unfold Guts.resync at 2 3. rewrite Eb. cbn [negb].
    destruct (Guts.pkt_sent g =? 0) eqn:Ep.
    + cbn [fst]. unfold Guts.resync. cbn. rewrite Eb, Ep. cbn. reflexivity.
    + destruct (Guts.due_time g <? now) eqn:El.
      * cbn [fst]. unfold Guts.resync. cbn. rewrite Eb. cbn. reflexivity.
      * cbn [fst]. unfold Guts.resync. rewrite Eb, Ep, El. reflexivity.
  - apply send_cases in Hrun.
    destruct Hrun as [(Hf & _) | (_ & tr' & Hrun & _)]; [congruence |].
    destruct (resync_frame g now) as (_ & _ & Hbr & _).
    apply send_loop_due_time_mono in Hrun; [exact Hrun | rewrite Hbr; exact Hb].
Qed.

End DueTime.

(** A session that is 40 ns late sends one packet: the due-time restarts
    at the clock reading. *)
Lemma send_due_time_not_past_witness :
  Guts.transmitting (Guts.mk 3 true 1504000 60 188 1 0) = true /\
  0 < Guts.bitrate (Guts.mk 3 true 1504000 60 188 1 0) /\
  exists ok g' tr,
    Guts.send (P := accepting_platform) (Guts.mk 3 true 1504000 60 188 1 0) 100 1
      [write_ok] = Some (ok, g', tr) /\
    100 <= Guts.due_time g'.
Proof.
  eassert (E : Guts.send (P := accepting_platform)
                 (Guts.mk 3 true 1504000 60 188 1 0) 100 1 [write_ok] = Some _)
    by (vm_compute; reflexivity).
  split; [reflexivity | split; [reflexivity |]].
  do 3 eexists. split; [exact E |].
  destruct (send_due_time_not_past (P := accepting_platform)
              (Guts.mk 3 true 1504000 60 188 1 0) 100 1 [write_ok] _ _ _
              eq_refl eq_refl E) as (H1 & _ & H2).
  exact (Z.le_trans _ _ _ H1 H2).
Defined.
